(** * Best w-plane accessor adapter

    Shallow embedding of [askap/dataaccess/BestWPlaneDataAccessor.cc]:
    the adapter fits a plane [w = A*u + B*v] through the rotated uvw
    coordinates of a chunk, subtracts it from [w] and keeps the fit
    coefficients between calls.

    Numbers.  The C++ [double] is idealised as an exact rational [Qc]
    (canonical fractions, Leibniz equality, decidable order).  Rounding,
    infinities and NaN are outside the model; every statement below is a
    statement about the formulas of the source evaluated exactly, and a
    division by zero, which gives an infinity or a NaN in binary64, ends
    the model with the outcome [NotFinite].  What holds of the control
    flow holds of the source whatever the arithmetic; where a statement
    rests on exact arithmetic it says so, and the module [B64] below has
    the reactive policy on binary64 numbers to show the difference.

    State.  The methods of the adapter are [const] and work on [mutable]
    members; they are functions from the members before a call to an
    outcome that carries the members after it.  The two loops of the
    predictive policy have no bound in the source and run on fuel. *)

From Stdlib Require Import QArith Qcanon Qcabs Lqa Lia List Bool Arith.
From Stdlib Require Import PrimFloat.
From Stdlib Require SpecFloat FloatOps.
Import ListNotations.
Open Scope Qc_scope.

(** ** Arithmetic helpers *)

Definition qc (n : Z) (d : positive) : Qc := Q2Qc (n # d).

(** [x < y] on doubles, as a boolean. *)
Definition Qcltb (x y : Qc) : bool :=
  match x ?= y with Lt => true | _ => false end.

Infix "<?" := Qcltb (at level 70, no associativity) : Qc_scope.

(** [x == y] on doubles, as a boolean. *)
Definition Qceqb (x y : Qc) : bool :=
  match x ?= y with Eq => true | _ => false end.

(** [casacore::square]. *)
Definition square (x : Qc) : Qc := x * x.

(** [fabs]. *)
Definition fabs (x : Qc) : Qc := Qcabs x.

(** [casacore::max(a, b)] on doubles: [a > b ? a : b]. *)
Definition cmax (a b : Qc) : Qc := if b <? a then a else b.

(** [casacore::C::c], the speed of light in m/s. *)
Definition C_c : Qc := qc 299792458 1.

(** The threshold on the determinant of the normal equations, [1e-7]. *)
Definition singularThreshold : Qc := qc 1 10000000.

(** The angular tolerance of the tangent point comparison, [1e-6]. *)
Definition tangentTolerance : Qc := qc 1 1000000.

(** ** Data *)

(** [casacore::RigidVector<casacore::Double, 3>]: elements (0), (1), (2). *)
Record UVW : Type := mkUVW { uvw_u : Qc; uvw_v : Qc; uvw_w : Qc }.

(** Modelled from the spec: [scimath::ChangeMonitor], whose declaration is
    not among the sources.  The spec describes the two change epochs as
    monotonically increasing integers that are compared for equality;
    [notifyOfChanges] advances the counter. *)
Definition ChangeMonitor : Type := nat.

Definition notifyOfChanges (m : ChangeMonitor) : ChangeMonitor := S m.

Definition sameMonitor (a b : ChangeMonitor) : bool := Nat.eqb a b.

(** Services of casacore and of the build that the adapter relies on. *)
Class Casacore : Type := {
  (** [casacore::MDirection] *)
  MDirection : Type;
  (** [MDirection::shiftLongitude(angle, true)] *)
  shiftLongitude : MDirection -> Qc -> MDirection;
  (** [UVWMachineCache::compare(dir1, dir2, tolerance)] *)
  compareDirections : MDirection -> MDirection -> Qc -> bool;
  (** [casacore::Quantity(x, "deg").getValue("rad")] *)
  degToRad : Qc -> Qc;
  (** an element of a [casacore::Vector] just after [resize] *)
  blankUVW : UVW;
  (** whether [ASKAPDEBUGASSERT] is compiled in *)
  ASKAP_DEBUG : bool
}.

(** [IConstDataAccessor], restricted to the two methods the adapter calls. *)
Record IConstDataAccessor `{Casacore} : Type := mkAccessor {
  acc_rotatedUVW : MDirection -> list UVW;
  acc_frequency : list Qc
}.

Arguments mkAccessor {_} _ _.

(** Modelled from the spec: the part of the base class [MetaDataAccessor]
    the adapter reads, whose declaration is not among the sources:
    [getROAccessor()], which fails when no accessor is associated, and
    [changeMonitor()], the epoch of the source (sourceEpoch). *)
Record MetaDataAccessor `{Casacore} : Type := mkMeta {
  getROAccessor : option IConstDataAccessor;
  changeMonitor : ChangeMonitor
}.

Arguments mkMeta {_} _ _.

(** The data members of [BestWPlaneDataAccessor]. *)
Record BestWPlaneDataAccessor `{Casacore} : Type := mkAdapter {
  itsCheckResidual : bool;
  itsWTolerance : Qc;
  itsCoeffA : Qc;
  itsCoeffB : Qc;
  itsUVWChangeMonitor : ChangeMonitor;
  itsPlaneChangeMonitor : ChangeMonitor;
  itsRotatedUVW : list UVW;
  itsLastTangentPoint : MDirection;
  itsPredictWPlane : bool;
  itsPredictTimeInterval : Qc
}.

Arguments mkAdapter {_} _ _ _ _ _ _ _ _ _ _.

(** [coeffA()], [coeffB()] and [planeChangeMonitor()]. *)
Definition coeffA `{Casacore} (s : BestWPlaneDataAccessor) : Qc := itsCoeffA s.
Definition coeffB `{Casacore} (s : BestWPlaneDataAccessor) : Qc := itsCoeffB s.
Definition planeChangeMonitor `{Casacore} (s : BestWPlaneDataAccessor)
  : ChangeMonitor := itsPlaneChangeMonitor s.

(** Assignments to the mutable members. *)
Definition setLastTangentPoint `{Casacore} (tp : MDirection)
    (s : BestWPlaneDataAccessor) : BestWPlaneDataAccessor :=
  mkAdapter (itsCheckResidual s) (itsWTolerance s) (itsCoeffA s) (itsCoeffB s)
    (itsUVWChangeMonitor s) (itsPlaneChangeMonitor s) (itsRotatedUVW s)
    tp (itsPredictWPlane s) (itsPredictTimeInterval s).

Definition setRotatedUVW `{Casacore} (buf : list UVW)
    (s : BestWPlaneDataAccessor) : BestWPlaneDataAccessor :=
  mkAdapter (itsCheckResidual s) (itsWTolerance s) (itsCoeffA s) (itsCoeffB s)
    (itsUVWChangeMonitor s) (itsPlaneChangeMonitor s) buf
    (itsLastTangentPoint s) (itsPredictWPlane s) (itsPredictTimeInterval s).

(** [itsCoeffA = a; itsCoeffB = b; itsPlaneChangeMonitor.notifyOfChanges();] *)
Definition commitPlane `{Casacore} (a b : Qc)
    (s : BestWPlaneDataAccessor) : BestWPlaneDataAccessor :=
  mkAdapter (itsCheckResidual s) (itsWTolerance s) a b
    (itsUVWChangeMonitor s) (notifyOfChanges (itsPlaneChangeMonitor s))
    (itsRotatedUVW s) (itsLastTangentPoint s) (itsPredictWPlane s)
    (itsPredictTimeInterval s).

Definition setCheckResidual `{Casacore} (b : bool)
    (s : BestWPlaneDataAccessor) : BestWPlaneDataAccessor :=
  mkAdapter b (itsWTolerance s) (itsCoeffA s) (itsCoeffB s)
    (itsUVWChangeMonitor s) (itsPlaneChangeMonitor s) (itsRotatedUVW s)
    (itsLastTangentPoint s) (itsPredictWPlane s) (itsPredictTimeInterval s).

(** ** Outcomes *)

(** The checks a call can fail. *)
Inductive AskapError : Type :=
| AccessorNotAssigned       (* getROAccessor() without an accessor *)
| TangentPointChanged       (* ASKAPCHECK on the tangent point *)
| ZeroSpectralChannels      (* ASKAPCHECK on the number of channels *)
| NonPositiveFrequency      (* ASKAPDEBUGASSERT(maxFreq > 0.) *)
| ResidualExceedsTolerance. (* ASKAPCHECK(maxDeviation < tolInMetres) *)

(** What a call does: it returns, throws, reads a vector past its end, is
    still looping when the fuel of the model is spent, or computes a double
    that is no rational (a division by zero).  The mutable members keep
    what was assigned before a throw. *)
Inductive Outcome (S A : Type) : Type :=
| Normal (a : A) (s : S)
| Throws (e : AskapError) (s : S)
| OutOfRange
| OutOfFuel
| NotFinite.

Arguments Normal {S A} a s.
Arguments Throws {S A} e s.
Arguments OutOfRange {S A}.
Arguments OutOfFuel {S A}.
Arguments NotFinite {S A}.

Definition bind {S A B : Type} (m : Outcome S A) (k : A -> S -> Outcome S B)
  : Outcome S B :=
  match m with
  | Normal a s => k a s
  | Throws e s => Throws e s
  | OutOfRange => OutOfRange
  | OutOfFuel => OutOfFuel
  | NotFinite => NotFinite
  end.

(** ** The plane fit and the deviation *)

(** The loop of [maxWDeviation], for given coefficients: the largest
    [fabs(A*u + B*v - w)] over the rows, starting from [0.]. *)
Definition planeDeviation (a b : Qc) (uvw : list UVW) : Qc :=
  fold_left
    (fun maxDeviation currentUVW =>
       let deviation :=
         fabs (a * uvw_u currentUVW + b * uvw_v currentUVW - uvw_w currentUVW) in
       if maxDeviation <? deviation then deviation else maxDeviation)
    uvw 0.

Definition maxWDeviation `{Casacore} (s : BestWPlaneDataAccessor)
    (uvw : list UVW) : Qc :=
  planeDeviation (coeffA s) (coeffB s) uvw.

(** The five sums of the least-squares problem. *)
Record Sums : Type := mkSums {
  su2 : Qc; sv2 : Qc; suv : Qc; suw : Qc; svw : Qc
}.

Definition accumulate (sm : Sums) (currentUVW : UVW) : Sums :=
  mkSums (su2 sm + square (uvw_u currentUVW))
         (sv2 sm + square (uvw_v currentUVW))
         (suv sm + uvw_u currentUVW * uvw_v currentUVW)
         (suw sm + uvw_u currentUVW * uvw_w currentUVW)
         (svw sm + uvw_v currentUVW * uvw_w currentUVW).

Definition lsfSums (uvw : list UVW) : Sums :=
  fold_left accumulate uvw (mkSums 0 0 0 0 0).

(** [D = su2 * sv2 - casacore::square(suv)]. *)
Definition determinant (sm : Sums) : Qc := su2 sm * sv2 sm - square (suv sm).

(** [fabs(D) < 1e-7]. *)
Definition singular (sm : Sums) : bool :=
  fabs (determinant sm) <? singularThreshold.

Definition fitA (sm : Sums) : Qc :=
  (sv2 sm * suw sm - suv sm * svw sm) / determinant sm.

Definition fitB (sm : Sums) : Qc :=
  (su2 sm * svw sm - suv sm * suw sm) / determinant sm.

(** ** Reactive policy: [updatePlaneIfNecessary] *)

(** The part of [updatePlaneIfNecessary] after the guard: the sums, the
    determinant test and the update of the coefficients. *)
Definition fitAndCommit `{Casacore} (uvw : list UVW) (maxDeviation : Qc)
    (s : BestWPlaneDataAccessor) : Qc * BestWPlaneDataAccessor :=
  let sm := lsfSums uvw in
  if singular sm then (maxDeviation, s)
  else
    let s' := commitPlane (fitA sm) (fitB sm) s in
    (maxWDeviation s' uvw, s').

Definition updatePlaneIfNecessary `{Casacore} (uvw : list UVW) (tolerance : Qc)
    (s : BestWPlaneDataAccessor) : Qc * BestWPlaneDataAccessor :=
  let maxDeviation := maxWDeviation s uvw in
  if (length uvw <? 2)%nat || (maxDeviation <? tolerance)
  then (maxDeviation, s)
  else fitAndCommit uvw maxDeviation s.

(** ** Predictive policy: [updateAdvancedTimePlaneIfNecessary]

    The accessor is a function of the tangent point: the vector obtained
    for one tangent point keeps its contents while other tangent points are
    requested. *)

(** The rows [0 .. n-1] of a vector, as the loops over
    [row < uvw.nelements()] read them from another vector. *)
Definition rowsOf (n : nat) (vec : list UVW) : option (list UVW) :=
  if (n <=? length vec)%nat then Some (firstn n vec) else None.

(** One second of rotation: [Quantity(-1*(360./86400.0),"deg")] in radians. *)
Definition angle `{Casacore} : Qc := degToRad (-(1) * (qc 360 1 / qc 86400 1)).

(** The loop [while (AdvancedDeviation < tolerance)]: the tangent point is
    advanced until the temporary plane is out of tolerance.  Returns the
    last tangent point, the total shift and the last deviation. *)
Fixpoint advanceLoop `{Casacore} (fuel : nat) (acc : IConstDataAccessor)
    (nelements : nat) (tmpCoeffA tmpCoeffB tolerance TimeShift : Qc)
    (newTangentPoint : MDirection) (TotalShift AdvancedDeviation : Qc)
    (s : BestWPlaneDataAccessor)
  : Outcome BestWPlaneDataAccessor (MDirection * Qc * Qc) :=
  if AdvancedDeviation <? tolerance then
    match fuel with
    | O => OutOfFuel
    | S fuel' =>
        let newTangentPoint' :=
          shiftLongitude newTangentPoint (TimeShift * angle) in
        let TotalShift' := TotalShift + TimeShift in
        match rowsOf nelements (acc_rotatedUVW acc newTangentPoint') with
        | None => OutOfRange
        | Some test_uvw =>
            advanceLoop fuel' acc nelements tmpCoeffA tmpCoeffB tolerance
              TimeShift newTangentPoint' TotalShift'
              (planeDeviation tmpCoeffA tmpCoeffB test_uvw) s
        end
    end
  else Normal (newTangentPoint, TotalShift, AdvancedDeviation) s.

(** How the [do ... while] loop is left: by the [return] of the singular
    case, or through its condition. *)
Inductive LoopEnd : Type :=
| ReturnedSingular (on_exit_deviation : Qc)
| ConditionFalse (on_exit_deviation : Qc).

(** The loop [do { ... } while (on_exit_deviation > tolerance)]. *)
Fixpoint commitLoop `{Casacore} (fuel : nat) (acc : IConstDataAccessor)
    (nelements : nat) (tolerance TimeShift : Qc)
    (tangentPoint newTangentPoint : MDirection) (s : BestWPlaneDataAccessor)
  : Outcome BestWPlaneDataAccessor LoopEnd :=
  match fuel with
  | O => OutOfFuel
  | S fuel' =>
      let on_exit_uvw := acc_rotatedUVW acc tangentPoint in
      let on_exit_deviation := maxWDeviation s on_exit_uvw in
      let newTangentPoint' :=
        shiftLongitude newTangentPoint (-(1) * TimeShift * angle) in
      match rowsOf nelements (acc_rotatedUVW acc newTangentPoint') with
      | None => OutOfRange
      | Some advanced_uvw =>
          let sm := lsfSums advanced_uvw in
          if singular sm then Normal (ReturnedSingular on_exit_deviation) s
          else
            let s' := commitPlane (fitA sm) (fitB sm) s in
            if tolerance <? on_exit_deviation
            then commitLoop fuel' acc nelements tolerance TimeShift
                   tangentPoint newTangentPoint' s'
            else Normal (ConditionFalse on_exit_deviation) s'
      end
  end.

(** The part of [updateAdvancedTimePlaneIfNecessary] after the first test:
    the temporary fit on the current chunk, the search forward in time and
    the committing loop. *)
Definition searchAdvancedPlane `{Casacore} (fuel : nat)
    (acc : IConstDataAccessor) (uvw : list UVW)
    (AdvancedDeviation tolerance : Qc) (tangentPoint : MDirection)
    (s : BestWPlaneDataAccessor) : Outcome BestWPlaneDataAccessor Qc :=
  let sm := lsfSums uvw in
  if singular sm then Normal AdvancedDeviation s
  else
    let tmpCoeffA := fitA sm in
    let tmpCoeffB := fitB sm in
    let AdvancedDeviation := planeDeviation tmpCoeffA tmpCoeffB uvw in
    if tolerance <? AdvancedDeviation then Normal AdvancedDeviation s
    else
      let TimeShift := itsPredictTimeInterval s in
      bind (advanceLoop fuel acc (length uvw) tmpCoeffA tmpCoeffB tolerance
              TimeShift tangentPoint 0 AdvancedDeviation s)
        (fun '(newTangentPoint, _, _) s1 =>
           bind (commitLoop fuel acc (length uvw) tolerance TimeShift
                   tangentPoint newTangentPoint s1)
             (fun ending s2 =>
                match ending with
                | ReturnedSingular on_exit_deviation =>
                    Normal on_exit_deviation s2
                | ConditionFalse _ => Normal (maxWDeviation s2 uvw) s2
                end)).

Definition updateAdvancedTimePlaneIfNecessary `{Casacore} (fuel : nat)
    (acc : IConstDataAccessor) (tolerance : Qc) (tangentPoint : MDirection)
    (s : BestWPlaneDataAccessor) : Outcome BestWPlaneDataAccessor Qc :=
  let uvw := acc_rotatedUVW acc tangentPoint in
  let AdvancedDeviation := maxWDeviation s uvw in
  if AdvancedDeviation <? tolerance then Normal AdvancedDeviation s
  else searchAdvancedPlane fuel acc uvw AdvancedDeviation tolerance
         tangentPoint s.

(** ** [rotatedUVW] *)

(** [freq.nelements() == 1 ? freq[0] : max(freq[0], freq[nelements-1])],
    for a vector with at least one element. *)
Definition maxFreqOf (freq : list Qc) : option Qc :=
  match freq with
  | [] => None
  | f0 :: rest =>
      Some (match rest with
            | [] => f0
            | _ :: _ => cmax f0 (last rest f0)
            end)
  end.

(** The tolerance in metres, with the two checks in front of it.  Without
    the debug assertion a frequency of [0.] reaches the division, whose
    result is no rational. *)
Definition toleranceInMetres `{Casacore} (freq : list Qc)
    (s : BestWPlaneDataAccessor) : Outcome BestWPlaneDataAccessor Qc :=
  match maxFreqOf freq with
  | None => Throws ZeroSpectralChannels s
  | Some maxFreq =>
      if ASKAP_DEBUG && negb (0 <? maxFreq)
      then Throws NonPositiveFrequency s
      else if Qceqb maxFreq 0 then NotFinite
      else Normal (itsWTolerance s * C_c / maxFreq) s
  end.

(** The row loop at the end of [rotatedUVW]. *)
Definition subtractPlane (a b : Qc) (currentUVW : UVW) : UVW :=
  mkUVW (uvw_u currentUVW) (uvw_v currentUVW)
        (uvw_w currentUVW - (a * uvw_u currentUVW + b * uvw_v currentUVW)).

(** [itsRotatedUVW.resize(n)] when the sizes differ. *)
Definition resizeBuffer `{Casacore} (n : nat) (s : BestWPlaneDataAccessor)
  : BestWPlaneDataAccessor :=
  if (length (itsRotatedUVW s) =? n)%nat then s
  else setRotatedUVW (repeat blankUVW n) s.

(** The choice between the two policies in [rotatedUVW]. *)
Definition fitPolicy `{Casacore} (fuel : nat) (acc : IConstDataAccessor)
    (originalUVW : list UVW) (tolInMetres : Qc) (tangentPoint : MDirection)
    (s : BestWPlaneDataAccessor) : Outcome BestWPlaneDataAccessor Qc :=
  if itsPredictWPlane s
  then updateAdvancedTimePlaneIfNecessary fuel acc tolInMetres tangentPoint s
  else let '(d, s') := updatePlaneIfNecessary originalUVW tolInMetres s in
       Normal d s'.

(** The first statements after a change is detected: the tangent point is
    remembered and the buffer gets the size of the chunk. *)
Definition beginRecompute `{Casacore} (tangentPoint : MDirection)
    (originalUVW : list UVW) (s : BestWPlaneDataAccessor)
  : BestWPlaneDataAccessor :=
  resizeBuffer (length originalUVW) (setLastTangentPoint tangentPoint s).

(** The part of [rotatedUVW] that runs when a change is detected. *)
Definition recomputeUVW `{Casacore} (fuel : nat) (acc : IConstDataAccessor)
    (tangentPoint : MDirection) (s : BestWPlaneDataAccessor)
  : Outcome BestWPlaneDataAccessor (list UVW) :=
  let originalUVW := acc_rotatedUVW acc tangentPoint in
  let s := beginRecompute tangentPoint originalUVW s in
  bind (toleranceInMetres (acc_frequency acc) s)
    (fun tolInMetres s =>
       bind (fitPolicy fuel acc originalUVW tolInMetres tangentPoint s)
         (fun maxDeviation s =>
            if itsCheckResidual s && negb (maxDeviation <? tolInMetres)
            then Throws ResidualExceedsTolerance s
            else
              let s := setRotatedUVW
                         (map (subtractPlane (coeffA s) (coeffB s)) originalUVW)
                         s in
              Normal (itsRotatedUVW s) s)).

Definition rotatedUVW `{Casacore} (fuel : nat) (meta : MetaDataAccessor)
    (tangentPoint : MDirection) (s : BestWPlaneDataAccessor)
  : Outcome BestWPlaneDataAccessor (list UVW) :=
  match getROAccessor meta with
  | None => Throws AccessorNotAssigned s
  | Some acc =>
      if sameMonitor (itsUVWChangeMonitor s) (changeMonitor meta) then
        if compareDirections tangentPoint (itsLastTangentPoint s)
             tangentTolerance
        then Normal (itsRotatedUVW s) s
        else Throws TangentPointChanged s
      else recomputeUVW fuel acc tangentPoint s
  end.

(** The largest [fabs(w)] of a coordinate sequence: what a caller reads off
    the corrected coordinates as the residual of the fit. *)
Definition largestAbsW (coords : list UVW) : Qc :=
  fold_left
    (fun m r => if m <? fabs (uvw_w r) then fabs (uvw_w r) else m)
    coords 0.

(** ** Notions used in the statements *)

(** A row that lies exactly on the plane [w = A0*u + B0*v]. *)
Definition onPlane (A0 B0 : Qc) (r : UVW) : Prop :=
  uvw_w r = A0 * uvw_u r + B0 * uvw_v r.

(** A change of state applied to the state an outcome carries. *)
Definition onState {S A : Type} (f : S -> S) (o : Outcome S A)
  : Outcome S A :=
  match o with
  | Normal a s => Normal a (f s)
  | Throws e s => Throws e (f s)
  | OutOfRange => OutOfRange
  | OutOfFuel => OutOfFuel
  | NotFinite => NotFinite
  end.

(** A change of the adapter that the policies neither read nor write. *)
Record Frame `{Casacore}
    (f : BestWPlaneDataAccessor -> BestWPlaneDataAccessor) : Prop := {
  frame_coeffA : forall s, itsCoeffA (f s) = itsCoeffA s;
  frame_coeffB : forall s, itsCoeffB (f s) = itsCoeffB s;
  frame_predict : forall s, itsPredictWPlane (f s) = itsPredictWPlane s;
  frame_interval :
    forall s, itsPredictTimeInterval (f s) = itsPredictTimeInterval s;
  frame_commit :
    forall a b s, commitPlane a b (f s) = f (commitPlane a b s)
}.

(** ** Construction, copy and assignment *)

(** The two-argument constructor.  [changeMonitor()] is the one of the
    base class of the new object; the members that the initialiser list
    leaves out are arguments (the buffer starts as an empty vector). *)
Definition construct `{Casacore} (meta : MetaDataAccessor) (tolerance : Qc)
    (checkResidual : bool) (planeMonitor : ChangeMonitor)
    (lastTangentPoint : MDirection) (predictTimeInterval : Qc)
  : BestWPlaneDataAccessor :=
  mkAdapter checkResidual tolerance 0 0 (changeMonitor meta) planeMonitor
    [] lastTangentPoint false predictTimeInterval.

(** The copy constructor: both monitors are initialised from
    [changeMonitor()] of the new object, the rest is copied. *)
Definition copyConstruct `{Casacore} (meta : MetaDataAccessor)
    (other : BestWPlaneDataAccessor) : BestWPlaneDataAccessor :=
  mkAdapter (itsCheckResidual other) (itsWTolerance other) (itsCoeffA other)
    (itsCoeffB other) (changeMonitor meta) (changeMonitor meta)
    (itsRotatedUVW other) (itsLastTangentPoint other)
    (itsPredictWPlane other) (itsPredictTimeInterval other).

(** The assignment operator; [otherIsThis] is the outcome of the test
    [&other != this], negated. *)
Definition assign `{Casacore} (otherIsThis : bool)
    (other self : BestWPlaneDataAccessor) : BestWPlaneDataAccessor :=
  if otherIsThis then self
  else
    mkAdapter (itsCheckResidual other) (itsWTolerance other)
      (itsCoeffA other) (itsCoeffB other)
      (notifyOfChanges (itsUVWChangeMonitor self))
      (notifyOfChanges (itsPlaneChangeMonitor self))
      (itsRotatedUVW other) (itsLastTangentPoint other)
      (itsPredictWPlane other) (itsPredictTimeInterval other).

(** ** Further notions used in the statements *)

(** The deviation of one row from the plane [w = a*u + b*v]. *)
Definition rowDeviation (a b : Qc) (r : UVW) : Qc :=
  fabs (a * uvw_u r + b * uvw_v r - uvw_w r).

(** Two adapters with the same configuration and the same plane. *)
Definition samePlaneAndConfig `{Casacore} (s t : BestWPlaneDataAccessor)
  : Prop :=
  itsCheckResidual s = itsCheckResidual t /\
  itsWTolerance s = itsWTolerance t /\
  itsCoeffA s = itsCoeffA t /\
  itsCoeffB s = itsCoeffB t /\
  itsPredictWPlane s = itsPredictWPlane t /\
  itsPredictTimeInterval s = itsPredictTimeInterval t.

(** The members a call of [rotatedUVW] has no assignment to. *)
Definition configOf `{Casacore} (s : BestWPlaneDataAccessor)
  : bool * Qc * ChangeMonitor * bool * Qc :=
  (itsCheckResidual s, itsWTolerance s, itsUVWChangeMonitor s,
   itsPredictWPlane s, itsPredictTimeInterval s).

(** A tangent point advanced [n] times by the same shift, and the total
    shift after [n] steps. *)
Definition advancedBy `{Casacore} (n : nat) (shift : Qc) (tp : MDirection)
  : MDirection :=
  Nat.iter n (fun d => shiftLongitude d shift) tp.

Definition totalAfter (n : nat) (TimeShift total : Qc) : Qc :=
  Nat.iter n (fun x => x + TimeShift) total.

(** The plane epoch has not gone back, and the adapter is the same
    unless the plane epoch has advanced. *)
Definition epochTracksPlane `{Casacore} (s s' : BestWPlaneDataAccessor)
  : Prop :=
  (planeChangeMonitor s <= planeChangeMonitor s')%nat /\
  (planeChangeMonitor s' = planeChangeMonitor s -> s' = s).

(** Two outcomes of the same kind, with the same value and with adapters
    of the same configuration and plane. *)
Definition sameOutcome `{Casacore} {A : Type}
    (o1 o2 : Outcome BestWPlaneDataAccessor A) : Prop :=
  match o1, o2 with
  | Normal a s1, Normal b s2 => a = b /\ samePlaneAndConfig s1 s2
  | Throws e s1, Throws e' s2 => e = e' /\ samePlaneAndConfig s1 s2
  | OutOfRange, OutOfRange => True
  | OutOfFuel, OutOfFuel => True
  | NotFinite, NotFinite => True
  | _, _ => False
  end.

(** The adapter [x] with the buffer, the remembered tangent point and the
    remembered source epoch of [t], and its plane epoch moved by [k]. *)
Definition rebase `{Casacore} (t : BestWPlaneDataAccessor) (k : nat)
    (x : BestWPlaneDataAccessor) : BestWPlaneDataAccessor :=
  mkAdapter (itsCheckResidual x) (itsWTolerance x) (itsCoeffA x)
    (itsCoeffB x) (itsUVWChangeMonitor t) (itsPlaneChangeMonitor x + k)%nat
    (itsRotatedUVW t) (itsLastTangentPoint t) (itsPredictWPlane x)
    (itsPredictTimeInterval x).

(** ** The reactive policy on binary64 numbers

    [maxWDeviation] and [updatePlaneIfNecessary] once more, statement by
    statement, on the binary64 numbers of the kernel: every operation
    rounds to the nearest binary64 number, one operation at a time, as
    the C++ [double] operations do when the compiler neither fuses a
    product with a sum nor keeps intermediate results in a wider format.
    Of the adapter only the plane is kept: the two coefficients and the
    plane epoch. *)
Module B64.

Record Row : Type := mkRow { u : float; v : float; w : float }.

Record Plane : Type := mkPlane {
  itsCoeffA : float;
  itsCoeffB : float;
  itsPlaneChangeMonitor : ChangeMonitor
}.

Definition square (x : float) : float := (x * x)%float.

Definition maxWDeviation (p : Plane) (uvw : list Row) : float :=
  fold_left
    (fun maxDeviation currentUVW =>
       let deviation :=
         abs (itsCoeffA p * u currentUVW + itsCoeffB p * v currentUVW
              - w currentUVW)%float in
       if (maxDeviation <? deviation)%float then deviation else maxDeviation)
    uvw 0%float.

Record Sums : Type := mkSums {
  su2 : float; sv2 : float; suv : float; suw : float; svw : float
}.

Definition accumulate (sm : Sums) (currentUVW : Row) : Sums :=
  mkSums (su2 sm + square (u currentUVW))%float
         (sv2 sm + square (v currentUVW))%float
         (suv sm + u currentUVW * v currentUVW)%float
         (suw sm + u currentUVW * w currentUVW)%float
         (svw sm + v currentUVW * w currentUVW)%float.

Definition lsfSums (uvw : list Row) : Sums :=
  fold_left accumulate uvw (mkSums 0 0 0 0 0)%float.

Definition determinant (sm : Sums) : float :=
  (su2 sm * sv2 sm - square (suv sm))%float.

(** The double nearest to [1e-7]. *)
Definition singularThreshold : float := 0x1.ad7f29abcaf48p-24%float.

Definition fitA (sm : Sums) : float :=
  ((sv2 sm * suw sm - suv sm * svw sm) / determinant sm)%float.

Definition fitB (sm : Sums) : float :=
  ((su2 sm * svw sm - suv sm * suw sm) / determinant sm)%float.

Definition updatePlaneIfNecessary (uvw : list Row) (tolerance : float)
    (p : Plane) : float * Plane :=
  let maxDeviation := maxWDeviation p uvw in
  if (length uvw <? 2)%nat || (maxDeviation <? tolerance)%float
  then (maxDeviation, p)
  else
    let sm := lsfSums uvw in
    if (abs (determinant sm) <? singularThreshold)%float
    then (maxDeviation, p)
    else
      let p' := mkPlane (fitA sm) (fitB sm)
                  (notifyOfChanges (itsPlaneChangeMonitor p)) in
      (maxWDeviation p' uvw, p').

(** The rational number a finite binary64 number is. *)
Definition exact (x : float) : Qc :=
  match FloatOps.Prim2SF x with
  | SpecFloat.S754_finite s m e =>
      let z := if s then Z.neg m else Z.pos m in
      if (0 <=? e)%Z then Q2Qc (inject_Z (z * 2 ^ e))
      else Q2Qc (z # Pos.pow 2 (Z.to_pos (- e)))
  | _ => 0
  end.

End B64.

(** The row of rationals that a row of binary64 numbers is. *)
Definition exactRow (r : B64.Row) : UVW :=
  mkUVW (B64.exact (B64.u r)) (B64.exact (B64.v r)) (B64.exact (B64.w r)).

(** ** A concrete world for examples

    Directions are longitudes, a shift adds to the longitude and two
    directions compare equal when they differ by less than the tolerance. *)
Module Example.

Definition world : Casacore := {|
  MDirection := Qc;
  shiftLongitude := fun d x => d + x;
  compareDirections := fun a b tol => fabs (a - b) <? tol;
  degToRad := fun x => x * (qc 355 113 / qc 180 1);
  blankUVW := mkUVW 0 0 0;
  ASKAP_DEBUG := true
|}.

Definition row (a b c : Z) : UVW := mkUVW (qc a 1) (qc b 1) (qc c 1).

(** An adapter after construction and association of an accessor: the
    source epoch has moved on from the one seen by the constructor. *)
Definition adapter (tolerance : Qc) (checkResidual predict : bool)
    (interval : Qc) : @BestWPlaneDataAccessor world :=
  @mkAdapter world checkResidual tolerance 0 0 0%nat 0%nat [] (qc 0 1)
    predict interval.

Definition source (uvw : @MDirection world -> list UVW) (freq : list Qc)
  : @MetaDataAccessor world :=
  @mkMeta world (Some (@mkAccessor world uvw freq)) 1%nat.

(** A source whose coordinates depend on the tangent point.  [stepOf]
    counts how many intervals of 60 s the longitude is ahead of 0.  At
    longitude 0 the chunk is [(10,0,10); (0,1,0)] (plane A = 1); one step
    ahead it is [(1,0,2); (0,1,0)] (A = 2); two and more steps ahead
    [(1,0,5); (0,1,0)] (A = 5); behind longitude 0 it is
    [(1,0,3); (0,1,0)] (A = 3). *)
Definition stepOf (lon : Qc) : Qc := lon / (qc 60 1 * @angle world).

Definition drift (lon : @MDirection world) : list UVW :=
  if stepOf lon <? qc (-1) 2 then [row 1 0 3; row 0 1 0]
  else if stepOf lon <? qc 1 2 then [row 10 0 10; row 0 1 0]
  else if stepOf lon <? qc 3 2 then [row 1 0 2; row 0 1 0]
  else [row 1 0 5; row 0 1 0].

Definition driftAccessor : @IConstDataAccessor world :=
  @mkAccessor world drift (C_c :: nil).

(** The same accessor after one more change of the source: epoch 2. *)
Definition changedSource (uvw : @MDirection world -> list UVW)
    (freq : list Qc) : @MetaDataAccessor world :=
  @mkMeta world (Some (@mkAccessor world uvw freq)) 2%nat.

(** Chunks that do not depend on the tangent point. *)
Definition flat : list UVW := [row 1 0 2; row 0 1 3].
Definition bent : list UVW := [row 1 0 0; row 0 1 0; row 1 1 3].
Definition tall : list UVW := [row 1 0 0; row 0 1 0; row 1 1 9].
Definition spread : list UVW := [row 1 0 0; row 1 0 1; row 0 1 0; row 1 0 4].

End Example.

(** * Properties *)

(** ** The order on doubles *)

Lemma Qcltb_lt (x y : Qc) : (x <? y) = true <-> x < y.
Proof.
  unfold Qcltb. rewrite Qclt_alt.
  destruct (x ?= y); split; intro E; try reflexivity; discriminate E.
Qed.

Lemma Qcltb_nlt (x y : Qc) : (x <? y) = false <-> ~ x < y.
Proof.
  rewrite <- Qcltb_lt. destruct (x <? y); split; intro E.
  - discriminate E.
  - exfalso. apply E. reflexivity.
  - intro F. discriminate F.
  - reflexivity.
Qed.

Lemma Qcltb_irrefl (x : Qc) : (x <? x) = false.
Proof. apply Qcltb_nlt. unfold Qclt. lra. Qed.

Lemma Qcltb_asym (x y : Qc) : (x <? y) = true -> (y <? x) = false.
Proof.
  rewrite Qcltb_lt, Qcltb_nlt. unfold Qclt. lra.
Qed.

Lemma fabs_0 : fabs 0 = 0.
Proof. unfold fabs. apply Qcabs_pos. unfold Qcle. simpl. lra. Qed.

Lemma threshold_pos : 0 < singularThreshold.
Proof. reflexivity. Qed.

Lemma nonsingular_determinant (sm : Sums) :
  singular sm = false -> determinant sm <> 0.
Proof.
  unfold singular. intros E D0. rewrite D0, fabs_0 in E.
  apply Qcltb_nlt in E. apply E. exact threshold_pos.
Qed.

(** ** The sums and the deviation on an exact plane *)

Lemma sums_on_plane (A0 B0 : Qc) (uvw : list UVW) :
  Forall (onPlane A0 B0) uvw ->
  forall sm : Sums,
    suw sm = A0 * su2 sm + B0 * suv sm ->
    svw sm = A0 * suv sm + B0 * sv2 sm ->
    let sm' := fold_left accumulate uvw sm in
    suw sm' = A0 * su2 sm' + B0 * suv sm' /\
    svw sm' = A0 * suv sm' + B0 * sv2 sm'.
Proof.
  induction 1 as [|r rest Hr _ IH]; intros sm Hu Hv; simpl.
  - split; assumption.
  - apply IH; unfold accumulate, square; simpl; rewrite Hr.
    + rewrite Hu. ring.
    + rewrite Hv. ring.
Qed.

Lemma fit_on_plane (A0 B0 : Qc) (uvw : list UVW) :
  Forall (onPlane A0 B0) uvw ->
  determinant (lsfSums uvw) <> 0 ->
  fitA (lsfSums uvw) = A0 /\ fitB (lsfSums uvw) = B0.
Proof.
  intros Hp HD.
  destruct (sums_on_plane A0 B0 uvw Hp (mkSums 0 0 0 0 0)) as [Hu Hv];
    try (simpl; ring).
  fold (lsfSums uvw) in Hu, Hv. unfold fitA, fitB. rewrite Hu, Hv.
  unfold determinant, square in *.
  split; field; exact HD.
Qed.

Lemma planeDeviation_on_plane (A0 B0 : Qc) (uvw : list UVW) :
  Forall (onPlane A0 B0) uvw -> planeDeviation A0 B0 uvw = 0.
Proof.
  unfold planeDeviation. induction 1 as [|r rest Hr _ IH]; simpl.
  - reflexivity.
  - replace (A0 * uvw_u r + B0 * uvw_v r - uvw_w r) with 0
      by (rewrite Hr; ring).
    rewrite fabs_0, Qcltb_irrefl. exact IH.
Qed.

(** ** Reactive policy *)

Lemma updatePlane_refit `{Casacore} (uvw : list UVW) (tol : Qc)
    (s : BestWPlaneDataAccessor) :
  (2 <= length uvw)%nat ->
  ~ maxWDeviation s uvw < tol ->
  updatePlaneIfNecessary uvw tol s
  = fitAndCommit uvw (maxWDeviation s uvw) s.
Proof.
  intros Hn Hd. unfold updatePlaneIfNecessary.
  apply Qcltb_nlt in Hd. rewrite Hd.
  apply Nat.ltb_ge in Hn. rewrite Hn. reflexivity.
Qed.

(** C1, as the code has it.  A refit of the reactive policy - at least
    two rows, the deviation from the prior plane not below the tolerance,
    [fabs(D) >= 1e-7] - commits [A = (sv2*suw - suv*svw)/D] and
    [B = (su2*svw - suv*suw)/D], computed from the sums of the chunk, and
    returns the largest deviation from that plane: in binary64, with the
    rounding of every operation (first part).  When the rows lie exactly on
    the plane [w = A0*u + B0*v] and sums, [D] and quotients are evaluated
    without rounding, [A] and [B] are [A0] and [B0] and the deviation
    returned is [0] (second part). *)
Theorem C1_refit_commits_the_quotients `{Casacore} :
  (forall (rows : list B64.Row) (tol : PrimFloat.float) (p : B64.Plane),
      (2 <= length rows)%nat ->
      PrimFloat.ltb (B64.maxWDeviation p rows) tol = false ->
      PrimFloat.ltb (PrimFloat.abs (B64.determinant (B64.lsfSums rows)))
        B64.singularThreshold = false ->
      let sm := B64.lsfSums rows in
      let D := PrimFloat.sub (PrimFloat.mul (B64.su2 sm) (B64.sv2 sm))
                 (PrimFloat.mul (B64.suv sm) (B64.suv sm)) in
      let res := B64.updatePlaneIfNecessary rows tol p in
      B64.itsCoeffA (snd res)
      = PrimFloat.div
          (PrimFloat.sub (PrimFloat.mul (B64.sv2 sm) (B64.suw sm))
             (PrimFloat.mul (B64.suv sm) (B64.svw sm))) D /\
      B64.itsCoeffB (snd res)
      = PrimFloat.div
          (PrimFloat.sub (PrimFloat.mul (B64.su2 sm) (B64.svw sm))
             (PrimFloat.mul (B64.suv sm) (B64.suw sm))) D /\
      fst res = B64.maxWDeviation (snd res) rows /\
      B64.itsPlaneChangeMonitor (snd res)
      = notifyOfChanges (B64.itsPlaneChangeMonitor p)) /\
  (forall (uvw : list UVW) (A0 B0 tol : Qc) (s : BestWPlaneDataAccessor),
      (2 <= length uvw)%nat ->
      Forall (onPlane A0 B0) uvw ->
      ~ fabs (determinant (lsfSums uvw)) < singularThreshold ->
      ~ maxWDeviation s uvw < tol ->
      let sm := lsfSums uvw in
      let D := su2 sm * sv2 sm - suv sm * suv sm in
      let res := updatePlaneIfNecessary uvw tol s in
      coeffA (snd res) = (sv2 sm * suw sm - suv sm * svw sm) / D /\
      coeffB (snd res) = (su2 sm * svw sm - suv sm * suw sm) / D /\
      coeffA (snd res) = A0 /\
      coeffB (snd res) = B0 /\
      fst res = 0).
Proof.
  split.
  - intros rows tol p Hn Hd HD sm D res. subst res.
    unfold B64.updatePlaneIfNecessary. rewrite Hd.
    apply Nat.ltb_ge in Hn. rewrite Hn. simpl orb. cbv iota.
    rewrite HD. simpl. repeat split.
  - intros uvw A0 B0 tol s Hn Hp HD Hd sm D res. subst res.
    assert (HS : singular sm = false) by (apply Qcltb_nlt; exact HD).
    rewrite (updatePlane_refit uvw tol s Hn Hd). unfold fitAndCommit.
    fold sm. rewrite HS.
    destruct (fit_on_plane A0 B0 uvw Hp (nonsingular_determinant sm HS))
      as [HA HB].
    fold sm in HA, HB. simpl. unfold maxWDeviation, coeffA, coeffB. simpl.
    repeat split.
    + exact HA.
    + exact HB.
    + rewrite HA, HB. apply planeDeviation_on_plane. exact Hp.
Qed.

(** C8.  With fewer than two rows the reactive policy attempts no fit: the
    adapter is left as it was and the deviation from the prior plane is
    returned. *)
Theorem C8_fewer_than_two_rows_no_fit `{Casacore} (uvw : list UVW) (tol : Qc)
    (s : BestWPlaneDataAccessor) :
  (length uvw < 2)%nat ->
  updatePlaneIfNecessary uvw tol s = (maxWDeviation s uvw, s).
Proof.
  intros Hn. unfold updatePlaneIfNecessary.
  apply Nat.ltb_lt in Hn. rewrite Hn. reflexivity.
Qed.

(** Closed goals on concrete rationals. *)
Ltac qc_closed :=
  match goal with
  | |- @eq Qc _ _ => apply Qc_is_canon; vm_compute; reflexivity
  | |- ~ (_ < _) => apply Qcltb_nlt; vm_compute; reflexivity
  | |- _ < _ => apply Qcltb_lt; vm_compute; reflexivity
  | |- @eq bool _ _ => vm_compute; reflexivity
  end.

Lemma C1_refit_witness :
  (let rows := [B64.mkRow 1 0 2; B64.mkRow 0 1 3]%float in
   let res := B64.updatePlaneIfNecessary rows 1%float
                (B64.mkPlane 0%float 0%float 0%nat) in
   B64.itsCoeffA (snd res) = 2%float /\ B64.itsCoeffB (snd res) = 3%float /\
   fst res = B64.maxWDeviation (snd res) rows) /\
  (let uvw := [Example.row 1 0 2; Example.row 0 1 3] in
   let s := Example.adapter (qc 1 10) true false 0 in
   let res := updatePlaneIfNecessary uvw (qc 1 1) s in
   coeffA (snd res) = qc 2 1 /\ coeffB (snd res) = qc 3 1 /\ fst res = 0).
Proof.
  destruct (@C1_refit_commits_the_quotients Example.world) as [Hb Hq].
  split.
  - intros rows res.
    destruct (Hb rows 1%float (B64.mkPlane 0%float 0%float 0%nat))
      as (HA & HB & Hdev & _);
      [simpl; lia | vm_compute; reflexivity | vm_compute; reflexivity |].
    fold res in HA, HB, Hdev. rewrite HA, HB.
    split; [vm_compute; reflexivity|].
    split; [vm_compute; reflexivity | exact Hdev].
  - intros uvw s res.
    assert (Hn : (2 <= length uvw)%nat) by (simpl; lia).
    assert (Hp : Forall (onPlane (qc 2 1) (qc 3 1)) uvw)
      by (repeat constructor; unfold onPlane; qc_closed).
    assert (HD : ~ fabs (determinant (lsfSums uvw)) < singularThreshold)
      by qc_closed.
    assert (Hd : ~ maxWDeviation s uvw < qc 1 1) by qc_closed.
    destruct (Hq uvw (qc 2 1) (qc 3 1) (qc 1 1) s Hn Hp HD Hd)
      as (_ & _ & HA & HB & H0).
    repeat split; assumption.
Defined.

(** C1 as stated fails in binary64.  The two rows
    [(6000, 6000 + 32/2^14, -32/2^14)] and [(6000, 6000 + 33/2^14, -33/2^14)]
    are binary64 numbers and lie exactly on the plane [w = u - v]
    ([A0 = 1], [B0 = -1]); their exact determinant is above [1e-7].  With
    no plane committed and tolerance [2^-10] the refit is triggered, the
    computed determinant is [-1], not below [1e-7] in absolute value
    either, and the coefficients committed are a negative [A] and a
    positive [B], with a deviation returned that is not [0]. *)
Lemma C1_counterexample :
  let rows := [B64.mkRow 6000 6000.001953125 (-0.001953125);
               B64.mkRow 6000 6000.00201416015625 (-0.00201416015625)]%float
  in
  let uvw := map exactRow rows in
  let tol := 0.0009765625%float in
  let p := (B64.mkPlane 0%float 0%float 0%nat) in
  let res := B64.updatePlaneIfNecessary rows tol p in
  ((2 <= length rows)%nat /\
   Forall (onPlane (qc 1 1) (qc (-1) 1)) uvw /\
   ~ fabs (determinant (lsfSums uvw)) < singularThreshold /\
   PrimFloat.ltb (B64.maxWDeviation p rows) tol = false /\
   PrimFloat.ltb (PrimFloat.abs (B64.determinant (B64.lsfSums rows)))
     B64.singularThreshold = false) /\
  B64.determinant (B64.lsfSums rows) = (-1)%float /\
  B64.itsPlaneChangeMonitor (snd res) = 1%nat /\
  PrimFloat.ltb (B64.itsCoeffA (snd res)) 0%float = true /\
  PrimFloat.ltb 0%float (B64.itsCoeffB (snd res)) = true /\
  PrimFloat.ltb 0%float (fst res) = true.
Proof.
  intros rows uvw tol p res. split; [|vm_compute; repeat split].
  split; [simpl; lia|]. split.
  - repeat constructor; unfold onPlane; qc_closed.
  - split; [qc_closed | split; vm_compute; reflexivity].
Qed.

Lemma C8_fewer_than_two_rows_witness :
  let uvw := (Example.row 3 4 5 :: nil) in
  let s := Example.adapter (qc 1 10) true false 0 in
  updatePlaneIfNecessary uvw (qc 1 1) s = (maxWDeviation s uvw, s).
Proof.
  intros uvw s.
  apply (C8_fewer_than_two_rows_no_fit uvw (qc 1 1) s). simpl. lia.
Defined.

(** ** Singular fits *)




(** ** The corrected coordinates *)

(** C4, as the code has it.  When [rotatedUVW] detects a change of the
    source, computes the coordinates of the chunk and returns,
    the sequence it returns (and keeps in its buffer) has one triple per
    row of the chunk, and the triple of a row [(u, v, w)] is
    [(u, v, w - coeffA*u - coeffB*v)] for the coefficients committed when
    the call returns.  When no change of the source is detected the call
    returns the buffer of the last computation and leaves the adapter as
    it is. *)
Theorem C4_corrected_coordinates `{Casacore} (fuel : nat)
    (meta : MetaDataAccessor) (acc : IConstDataAccessor) (tp : MDirection)
    (s s' : BestWPlaneDataAccessor) (coords : list UVW) :
  getROAccessor meta = Some acc ->
  rotatedUVW fuel meta tp s = Normal coords s' ->
  let uvw := acc_rotatedUVW acc tp in
  if sameMonitor (itsUVWChangeMonitor s) (changeMonitor meta)
  then coords = itsRotatedUVW s /\ s' = s
  else
    length coords = length uvw /\
    coords = map (fun r => mkUVW (uvw_u r) (uvw_v r)
                             (uvw_w r - coeffA s' * uvw_u r
                              - coeffB s' * uvw_v r)) uvw /\
    itsRotatedUVW s' = coords.
Proof.
  intros Hacc Hcall uvw. unfold rotatedUVW in Hcall.
  rewrite Hacc in Hcall.
  destruct (sameMonitor (itsUVWChangeMonitor s) (changeMonitor meta)).
  { destruct (compareDirections tp (itsLastTangentPoint s) tangentTolerance);
      [|discriminate Hcall].
    injection Hcall as <- <-. split; reflexivity. }
  unfold recomputeUVW in Hcall. fold uvw in Hcall.
  destruct (toleranceInMetres (acc_frequency acc)
              (beginRecompute tp uvw s)) as [tol s0|e s0| | |];
    simpl in Hcall; try discriminate Hcall.
  destruct (fitPolicy fuel acc uvw tol tp s0) as [dev s1|e s1| | |];
    simpl in Hcall; try discriminate Hcall.
  destruct (itsCheckResidual s1 && negb (dev <? tol));
    try discriminate Hcall.
  injection Hcall as Hc Hs. subst s' coords. simpl.
  assert (E : map (subtractPlane (coeffA s1) (coeffB s1)) uvw
              = map (fun r => mkUVW (uvw_u r) (uvw_v r)
                                (uvw_w r - coeffA s1 * uvw_u r
                                 - coeffB s1 * uvw_v r)) uvw).
  { apply map_ext. intros r. unfold subtractPlane. f_equal. ring. }
  repeat split.
  - apply length_map.
  - exact E.
Qed.

Lemma C4_corrected_coordinates_witness :
  let uvw := [Example.row 1 0 2; Example.row 0 1 3; Example.row 1 1 6] in
  let meta := Example.source (fun _ => uvw) (C_c :: nil) in
  let s := Example.adapter (qc 1 1) false false 0 in
  exists coords s',
    rotatedUVW 0 meta (qc 0 1) s = Normal coords s' /\
    length coords = 3%nat /\
    coords = map (fun r => mkUVW (uvw_u r) (uvw_v r)
                             (uvw_w r - coeffA s' * uvw_u r
                              - coeffB s' * uvw_v r)) uvw.
Proof.
  intros uvw meta s.
  assert (Hcall : exists coords s',
             rotatedUVW 0 meta (qc 0 1) s = Normal coords s')
    by (do 2 eexists; vm_compute; reflexivity).
  destruct Hcall as (coords & s' & Hcall).
  exists coords, s'. split; [exact Hcall|].
  pose proof (C4_corrected_coordinates 0 meta
                (@mkAccessor Example.world (fun _ => uvw) (C_c :: nil))
                (qc 0 1) s s' coords eq_refl Hcall) as Hc.
  change (length coords = length uvw /\
          coords = map (fun r => mkUVW (uvw_u r) (uvw_v r)
                                   (uvw_w r - coeffA s' * uvw_u r
                                    - coeffB s' * uvw_v r)) uvw /\
          itsRotatedUVW s' = coords) in Hc.
  destruct Hc as (Hl & Hm & _). split; assumption.
Defined.

(** C4 as stated fails when the call is served from the buffer.  An
    adapter [other] has computed the two-row chunk [Example.flat] (plane
    A = 2, B = 3).  A second adapter was constructed at source epoch 0 and
    its source, now at epoch 1, holds the three-row chunk [Example.tall].
    After the assignment of [other] to it, the second adapter remembers
    epoch 1: its next call detects no change and returns the two rows
    taken from [other] for a chunk of three rows. *)
Lemma C4_counterexample :
  let tp := qc 0 1 in
  let meta1 := Example.source (fun _ => Example.flat) (C_c :: nil) in
  let meta2 := Example.source (fun _ => Example.tall) (C_c :: nil) in
  match rotatedUVW 0 meta1 tp (Example.adapter (qc 1 1) true false 0) with
  | Normal _ other =>
      let self := assign false other
                    (Example.adapter (qc 1 1) true false 0) in
      match rotatedUVW 0 meta2 tp self with
      | Normal coords _ =>
          length coords = 2%nat /\ length Example.tall = 3%nat /\
          coords = itsRotatedUVW other
      | _ => False
      end
  | _ => False
  end.
Proof.
  vm_compute. repeat split.
Qed.

(** ** The tolerance in metres *)

(** C5, evaluated.  The chunk has the channel frequencies 1, 3 and 2 GHz:
    3 GHz is in the list and no channel has a larger frequency.  The
    tolerance in metres is obtained by dividing by 2 GHz, the larger of the
    first and the last channel; it is not the tolerance for 3 GHz, and it
    is larger than that one. *)
Lemma C5_largest_frequency_missed :
  let s := Example.adapter (qc 1 10) false false 0 in
  let freq := [qc 1000000000 1; qc 3000000000 1; qc 2000000000 1] in
  (In (qc 3000000000 1) freq /\
   Forall (fun f => f <= qc 3000000000 1) freq) /\
  toleranceInMetres freq s
  = Normal (itsWTolerance s * C_c / qc 2000000000 1) s /\
  toleranceInMetres freq s
  <> Normal (itsWTolerance s * C_c / qc 3000000000 1) s /\
  itsWTolerance s * C_c / qc 3000000000 1
  < itsWTolerance s * C_c / qc 2000000000 1.
Proof.
  intros s freq. split; [|split; [|split]].
  - split; [right; left; reflexivity|].
    repeat constructor; apply Qcnot_lt_le; qc_closed.
  - reflexivity.
  - intros E. injection E as E. discriminate E.
  - qc_closed.
Qed.

(** ** What the two policies read and write

    The policies read the coefficients and the predictive time interval and
    write the coefficients and the plane epoch, nothing else.  A change of
    the other members commutes with them. *)

Lemma frame_setCheckResidual `{Casacore} (b : bool) :
  Frame (setCheckResidual b).
Proof. constructor; reflexivity. Qed.

Lemma frame_setRotatedUVW `{Casacore} (buf : list UVW) :
  Frame (setRotatedUVW buf).
Proof. constructor; reflexivity. Qed.

Lemma frame_setLastTangentPoint `{Casacore} (tp : MDirection) :
  Frame (setLastTangentPoint tp).
Proof. constructor; reflexivity. Qed.

Section FrameLemmas.
Context `{Casacore}.
Variable f : BestWPlaneDataAccessor -> BestWPlaneDataAccessor.
Hypothesis Hf : Frame f.

Lemma frame_maxWDeviation (s : BestWPlaneDataAccessor) (uvw : list UVW) :
  maxWDeviation (f s) uvw = maxWDeviation s uvw.
Proof.
  unfold maxWDeviation, coeffA, coeffB.
  rewrite (frame_coeffA f Hf), (frame_coeffB f Hf). reflexivity.
Qed.

Lemma frame_updatePlaneIfNecessary (uvw : list UVW) (tol : Qc)
    (s : BestWPlaneDataAccessor) :
  updatePlaneIfNecessary uvw tol (f s)
  = (fst (updatePlaneIfNecessary uvw tol s),
     f (snd (updatePlaneIfNecessary uvw tol s))).
Proof.
  unfold updatePlaneIfNecessary, fitAndCommit.
  rewrite frame_maxWDeviation.
  destruct ((length uvw <? 2)%nat || (maxWDeviation s uvw <? tol));
    [reflexivity|].
  destruct (singular (lsfSums uvw)); [reflexivity|].
  rewrite (frame_commit f Hf), frame_maxWDeviation. reflexivity.
Qed.

Lemma frame_advanceLoop (fuel : nat) (acc : IConstDataAccessor) (n : nat)
    (a b tol shift : Qc) :
  forall (tp : MDirection) (total dev : Qc) (s : BestWPlaneDataAccessor),
    advanceLoop fuel acc n a b tol shift tp total dev (f s)
    = onState f (advanceLoop fuel acc n a b tol shift tp total dev s).
Proof.
  induction fuel as [|fuel IH]; intros tp total dev s; simpl;
    destruct (dev <? tol); try reflexivity.
  destruct (rowsOf n (acc_rotatedUVW acc (shiftLongitude tp (shift * angle))));
    [apply IH | reflexivity].
Qed.

Lemma frame_commitLoop (fuel : nat) (acc : IConstDataAccessor) (n : nat)
    (tol shift : Qc) (tp : MDirection) :
  forall (newTP : MDirection) (s : BestWPlaneDataAccessor),
    commitLoop fuel acc n tol shift tp newTP (f s)
    = onState f (commitLoop fuel acc n tol shift tp newTP s).
Proof.
  induction fuel as [|fuel IH]; intros newTP s; simpl; [reflexivity|].
  destruct (rowsOf n (acc_rotatedUVW acc
                        (shiftLongitude newTP (- (1) * shift * angle))))
    as [adv|]; [|reflexivity].
  destruct (singular (lsfSums adv)).
  - rewrite frame_maxWDeviation. reflexivity.
  - rewrite frame_maxWDeviation, (frame_commit f Hf).
    destruct (tol <? maxWDeviation s (acc_rotatedUVW acc tp));
      [apply IH | reflexivity].
Qed.

Lemma frame_updateAdvancedTime (fuel : nat) (acc : IConstDataAccessor)
    (tol : Qc) (tp : MDirection) (s : BestWPlaneDataAccessor) :
  updateAdvancedTimePlaneIfNecessary fuel acc tol tp (f s)
  = onState f (updateAdvancedTimePlaneIfNecessary fuel acc tol tp s).
Proof.
  unfold updateAdvancedTimePlaneIfNecessary, searchAdvancedPlane.
  rewrite frame_maxWDeviation.
  destruct (maxWDeviation s (acc_rotatedUVW acc tp) <? tol);
    [reflexivity|].
  destruct (singular (lsfSums (acc_rotatedUVW acc tp))); [reflexivity|].
  destruct (tol <? planeDeviation _ _ (acc_rotatedUVW acc tp));
    [reflexivity|].
  rewrite (frame_interval f Hf), frame_advanceLoop.
  destruct (advanceLoop fuel acc _ _ _ tol _ tp 0 _ s)
    as [[[newTP total] dev] s1|e s1| | |]; simpl; try reflexivity.
  rewrite frame_commitLoop.
  destruct (commitLoop fuel acc _ tol _ tp newTP s1)
    as [[d|d] s2|e s2| | |]; simpl; try reflexivity.
  rewrite frame_maxWDeviation. reflexivity.
Qed.

Lemma frame_fitPolicy (fuel : nat) (acc : IConstDataAccessor)
    (uvw : list UVW) (tol : Qc) (tp : MDirection)
    (s : BestWPlaneDataAccessor) :
  fitPolicy fuel acc uvw tol tp (f s)
  = onState f (fitPolicy fuel acc uvw tol tp s).
Proof.
  unfold fitPolicy. rewrite (frame_predict f Hf).
  destruct (itsPredictWPlane s).
  - apply frame_updateAdvancedTime.
  - rewrite frame_updatePlaneIfNecessary.
    destruct (updatePlaneIfNecessary uvw tol s). reflexivity.
Qed.
End FrameLemmas.

(** A member that [commitPlane] does not touch is the same after a policy
    has run; and a policy throws nothing. *)
Section Preserved.
Context `{Casacore} {X : Type}.
Variable g : BestWPlaneDataAccessor -> X.
Hypothesis Hg : forall a b s, g (commitPlane a b s) = g s.

Lemma advanceLoop_state (fuel : nat) (acc : IConstDataAccessor) (n : nat)
    (a b tol shift : Qc) (s : BestWPlaneDataAccessor) :
  forall (tp : MDirection) (total dev : Qc),
    match advanceLoop fuel acc n a b tol shift tp total dev s with
    | Normal _ s' => s' = s
    | Throws _ _ => False
    | _ => True
    end.
Proof.
  induction fuel as [|fuel IH]; intros tp total dev; simpl;
    destruct (dev <? tol); try reflexivity; try exact I.
  destruct (rowsOf n (acc_rotatedUVW acc (shiftLongitude tp (shift * angle))));
    [apply IH | exact I].
Qed.

Lemma commitLoop_preserves (fuel : nat) (acc : IConstDataAccessor)
    (n : nat) (tol shift : Qc) (tp : MDirection) :
  forall (newTP : MDirection) (s : BestWPlaneDataAccessor),
    match commitLoop fuel acc n tol shift tp newTP s with
    | Normal _ s' => g s' = g s
    | Throws _ _ => False
    | _ => True
    end.
Proof.
  induction fuel as [|fuel IH]; intros newTP s; simpl; [exact I|].
  destruct (rowsOf n (acc_rotatedUVW acc
                        (shiftLongitude newTP (- (1) * shift * angle))))
    as [adv|]; [|exact I].
  destruct (singular (lsfSums adv)); [reflexivity|].
  destruct (tol <? maxWDeviation s (acc_rotatedUVW acc tp)).
  - specialize (IH (shiftLongitude newTP (- (1) * shift * angle))
                  (commitPlane (fitA (lsfSums adv)) (fitB (lsfSums adv)) s)).
    destruct (commitLoop fuel acc n tol shift tp _ _); try exact IH.
    rewrite IH. apply Hg.
  - apply Hg.
Qed.

Lemma fitPolicy_preserves (fuel : nat) (acc : IConstDataAccessor)
    (uvw : list UVW) (tol : Qc) (tp : MDirection)
    (s : BestWPlaneDataAccessor) :
  match fitPolicy fuel acc uvw tol tp s with
  | Normal _ s' => g s' = g s
  | Throws _ _ => False
  | _ => True
  end.
Proof.
  unfold fitPolicy. destruct (itsPredictWPlane s).
  - unfold updateAdvancedTimePlaneIfNecessary, searchAdvancedPlane.
    destruct (maxWDeviation s (acc_rotatedUVW acc tp) <? tol);
      [reflexivity|].
    destruct (singular (lsfSums (acc_rotatedUVW acc tp))); [reflexivity|].
    destruct (tol <? planeDeviation _ _ (acc_rotatedUVW acc tp));
      [reflexivity|].
    pose proof (advanceLoop_state fuel acc (length (acc_rotatedUVW acc tp))
                  (fitA (lsfSums (acc_rotatedUVW acc tp)))
                  (fitB (lsfSums (acc_rotatedUVW acc tp)))
                  tol (itsPredictTimeInterval s) s tp 0
                  (planeDeviation (fitA (lsfSums (acc_rotatedUVW acc tp)))
                     (fitB (lsfSums (acc_rotatedUVW acc tp)))
                     (acc_rotatedUVW acc tp))) as Hadv.
    destruct (advanceLoop fuel acc _ _ _ tol _ tp 0 _ s)
      as [[[newTP total] dev] s1|e s1| | |]; simpl; try exact Hadv.
    subst s1.
    pose proof (commitLoop_preserves fuel acc
                  (length (acc_rotatedUVW acc tp)) tol
                  (itsPredictTimeInterval s) tp newTP s) as Hloop.
    destruct (commitLoop fuel acc _ tol _ tp newTP s)
      as [[d|d] s2|e s2| | |]; simpl; exact Hloop.
  - unfold updatePlaneIfNecessary, fitAndCommit.
    destruct ((length uvw <? 2)%nat || (maxWDeviation s uvw <? tol));
      [reflexivity|].
    destruct (singular (lsfSums uvw)); [reflexivity | apply Hg].
Qed.
End Preserved.

(** ** The tangent point check *)

Lemma beginRecompute_lastTangentPoint `{Casacore} (tp : MDirection)
    (uvw : list UVW) (s : BestWPlaneDataAccessor) :
  itsLastTangentPoint (beginRecompute tp uvw s) = tp.
Proof.
  unfold beginRecompute, resizeBuffer.
  destruct (length (itsRotatedUVW (setLastTangentPoint tp s)) =? length uvw)%nat;
    reflexivity.
Qed.

Lemma toleranceInMetres_state `{Casacore} (freq : list Qc)
    (s : BestWPlaneDataAccessor) :
  match toleranceInMetres freq s with
  | Normal _ s' => s' = s
  | Throws e s' => s' = s /\ e <> TangentPointChanged
  | NotFinite => True
  | _ => False
  end.
Proof.
  unfold toleranceInMetres. destruct (maxFreqOf freq) as [m|].
  - destruct (ASKAP_DEBUG && negb (0 <? m)).
    + split; [reflexivity | discriminate].
    + destruct (Qceqb m 0); [exact I | reflexivity].
  - split; [reflexivity | discriminate].
Qed.

(** C7, as the code has it.  The tangent point of a call is compared with
    the one remembered from the last recomputation, and only when no change
    of the source is detected: then a materially different tangent point
    makes the call fail and the adapter is left as it was.  When a change
    is detected, the call never fails on the tangent point; it adopts the
    new tangent point as the remembered one. *)
Theorem C7_tangent_point_checked_without_change `{Casacore} (fuel : nat)
    (meta : MetaDataAccessor) (acc : IConstDataAccessor) (tp : MDirection)
    (s : BestWPlaneDataAccessor) :
  getROAccessor meta = Some acc ->
  compareDirections tp (itsLastTangentPoint s) tangentTolerance = false ->
  (sameMonitor (itsUVWChangeMonitor s) (changeMonitor meta) = true ->
   rotatedUVW fuel meta tp s = Throws TangentPointChanged s) /\
  (sameMonitor (itsUVWChangeMonitor s) (changeMonitor meta) = false ->
   match rotatedUVW fuel meta tp s with
   | Normal _ s' => itsLastTangentPoint s' = tp
   | Throws e s' => e <> TangentPointChanged /\ itsLastTangentPoint s' = tp
   | _ => True
   end).
Proof.
  intros Hacc Hcmp. unfold rotatedUVW. rewrite Hacc. split; intros Hmon;
    rewrite Hmon.
  - rewrite Hcmp. reflexivity.
  - unfold recomputeUVW.
    pose proof (beginRecompute_lastTangentPoint tp (acc_rotatedUVW acc tp) s)
      as Hlast.
    pose proof (toleranceInMetres_state (acc_frequency acc)
                  (beginRecompute tp (acc_rotatedUVW acc tp) s)) as Htol.
    destruct (toleranceInMetres (acc_frequency acc)
                (beginRecompute tp (acc_rotatedUVW acc tp) s))
      as [tol s0|e s0| | |]; simpl; try exact I.
    + subst s0.
      pose proof (fitPolicy_preserves itsLastTangentPoint
                    (fun _ _ _ => eq_refl) fuel acc (acc_rotatedUVW acc tp)
                    tol tp (beginRecompute tp (acc_rotatedUVW acc tp) s))
        as Hpol.
      destruct (fitPolicy fuel acc (acc_rotatedUVW acc tp) tol tp
                  (beginRecompute tp (acc_rotatedUVW acc tp) s))
        as [dev s1|e s1| | |]; simpl; try exact I; try contradiction.
      rewrite Hlast in Hpol.
      destruct (itsCheckResidual s1 && negb (dev <? tol)); simpl.
      * split; [discriminate | exact Hpol].
      * exact Hpol.
    + destruct Htol as [Hs He]. subst s0. split; assumption.
Qed.

Lemma C7_tangent_point_witness :
  let uvw := [Example.row 1 0 2; Example.row 0 1 3] in
  let meta := @mkMeta Example.world
                (Some (@mkAccessor Example.world (fun _ => uvw) (C_c :: nil)))
                0%nat in
  let s := Example.adapter (qc 1 1) false false 0 in
  rotatedUVW 0 meta (qc 1 1) s = Throws TangentPointChanged s.
Proof.
  intros uvw meta s.
  apply (C7_tangent_point_checked_without_change 0 meta
           (@mkAccessor Example.world (fun _ => uvw) (C_c :: nil))
           (qc 1 1) s eq_refl eq_refl).
  reflexivity.
Defined.

(** C7 as stated fails when the source has changed.  The first call, with
    longitude 2, binds the adapter to that tangent point.  The source then
    changes (its epoch goes from 1 to 2).  The next call comes with
    longitude 3, materially different from longitude 2: it does not fail,
    it returns the corrected coordinates and the adapter now remembers
    longitude 3. *)
Lemma C7_counterexample :
  let meta1 := Example.source (fun _ => Example.flat) (C_c :: nil) in
  let meta2 := Example.changedSource (fun _ => Example.flat) (C_c :: nil) in
  let s := Example.adapter (qc 1 1) false false 0 in
  match rotatedUVW 0 meta1 (qc 2 1) s with
  | Normal _ s1 =>
      itsLastTangentPoint s1 = qc 2 1 /\
      @compareDirections Example.world (qc 3 1) (qc 2 1) tangentTolerance
      = false /\
      changeMonitor meta2 <> changeMonitor meta1 /\
      match rotatedUVW 0 meta2 (qc 3 1) s1 with
      | Normal coords s2 =>
          itsLastTangentPoint s2 = qc 3 1 /\ length coords = 2%nat
      | _ => False
      end
  | _ => False
  end.
Proof.
  vm_compute. repeat split. discriminate.
Qed.

(** ** Comparisons with the tolerance *)

Lemma rotatedUVW_after_policy `{Casacore} (fuel : nat)
    (meta : MetaDataAccessor) (acc : IConstDataAccessor) (tp : MDirection)
    (s s1 : BestWPlaneDataAccessor) (tol dev : Qc) :
  getROAccessor meta = Some acc ->
  sameMonitor (itsUVWChangeMonitor s) (changeMonitor meta) = false ->
  let uvw := acc_rotatedUVW acc tp in
  let s0 := beginRecompute tp uvw s in
  toleranceInMetres (acc_frequency acc) s0 = Normal tol s0 ->
  fitPolicy fuel acc uvw tol tp s0 = Normal dev s1 ->
  rotatedUVW fuel meta tp s
  = if itsCheckResidual s1 && negb (dev <? tol)
    then Throws ResidualExceedsTolerance s1
    else Normal (map (subtractPlane (coeffA s1) (coeffB s1)) uvw)
           (setRotatedUVW (map (subtractPlane (coeffA s1) (coeffB s1)) uvw)
              s1).
Proof.
  intros Hacc Hmon uvw s0 Htol Hpol. unfold rotatedUVW.
  rewrite Hacc, Hmon. unfold recomputeUVW. fold uvw. fold s0.
  rewrite Htol. simpl. rewrite Hpol. simpl. reflexivity.
Qed.

Lemma beginRecompute_checkResidual `{Casacore} (tp : MDirection)
    (uvw : list UVW) (s : BestWPlaneDataAccessor) :
  itsCheckResidual (beginRecompute tp uvw s) = itsCheckResidual s.
Proof.
  unfold beginRecompute, resizeBuffer.
  destruct (length (itsRotatedUVW (setLastTangentPoint tp s)) =? length uvw)%nat;
    reflexivity.
Qed.

(** C10, as the code has it.  The comparisons with the tolerance that are
    written with [<] treat a deviation equal to the tolerance as exceeding
    it.  In the reactive policy, on a chunk of at least two rows, it leads
    to the fit (and, the fit not being singular, to a commit that advances
    the plane epoch).  In the predictive policy it prevents the immediate
    return: when the temporary plane is itself out of tolerance the call
    returns the deviation of the temporary plane, not the one found on
    entry.  With [checkResidual] a final deviation equal to the tolerance
    makes the call fail.  The two comparisons written with [>] treat a
    deviation equal to the tolerance as within it: a temporary plane whose
    deviation equals the tolerance is accepted, and the committing loop is
    left when the deviation it tests equals the tolerance. *)
Theorem C10_tolerance_comparisons `{Casacore} :
  (forall (uvw : list UVW) (tol : Qc) (s : BestWPlaneDataAccessor),
      (2 <= length uvw)%nat ->
      maxWDeviation s uvw = tol ->
      updatePlaneIfNecessary uvw tol s = fitAndCommit uvw tol s /\
      (singular (lsfSums uvw) = false ->
       planeChangeMonitor (snd (updatePlaneIfNecessary uvw tol s))
       = notifyOfChanges (planeChangeMonitor s))) /\
  (forall (fuel : nat) (acc : IConstDataAccessor) (tol : Qc)
          (tp : MDirection) (s : BestWPlaneDataAccessor),
      let uvw := acc_rotatedUVW acc tp in
      let sm := lsfSums uvw in
      maxWDeviation s uvw = tol ->
      singular sm = false ->
      tol < planeDeviation (fitA sm) (fitB sm) uvw ->
      updateAdvancedTimePlaneIfNecessary fuel acc tol tp s
      = Normal (planeDeviation (fitA sm) (fitB sm) uvw) s) /\
  (forall (fuel : nat) (acc : IConstDataAccessor) (tol : Qc)
          (tp : MDirection) (s : BestWPlaneDataAccessor) (adv : list UVW),
      let uvw := acc_rotatedUVW acc tp in
      let sm := lsfSums uvw in
      maxWDeviation s uvw = tol ->
      singular sm = false ->
      planeDeviation (fitA sm) (fitB sm) uvw = tol ->
      rowsOf (length uvw)
        (acc_rotatedUVW acc
           (shiftLongitude tp (-(1) * itsPredictTimeInterval s * angle)))
      = Some adv ->
      singular (lsfSums adv) = false ->
      let s' := commitPlane (fitA (lsfSums adv)) (fitB (lsfSums adv)) s in
      updateAdvancedTimePlaneIfNecessary (S fuel) acc tol tp s
      = Normal (maxWDeviation s' uvw) s') /\
  (forall (fuel : nat) (acc : IConstDataAccessor) (n : nat) (tol shift : Qc)
          (tp newTP : MDirection) (s : BestWPlaneDataAccessor)
          (adv : list UVW),
      maxWDeviation s (acc_rotatedUVW acc tp) = tol ->
      rowsOf n (acc_rotatedUVW acc (shiftLongitude newTP (-(1) * shift * angle)))
      = Some adv ->
      singular (lsfSums adv) = false ->
      commitLoop (S fuel) acc n tol shift tp newTP s
      = Normal (ConditionFalse tol)
          (commitPlane (fitA (lsfSums adv)) (fitB (lsfSums adv)) s)) /\
  (forall (fuel : nat) (meta : MetaDataAccessor) (acc : IConstDataAccessor)
          (tp : MDirection) (s s1 : BestWPlaneDataAccessor) (tol : Qc),
      getROAccessor meta = Some acc ->
      sameMonitor (itsUVWChangeMonitor s) (changeMonitor meta) = false ->
      itsCheckResidual s = true ->
      toleranceInMetres (acc_frequency acc)
        (beginRecompute tp (acc_rotatedUVW acc tp) s)
      = Normal tol (beginRecompute tp (acc_rotatedUVW acc tp) s) ->
      fitPolicy fuel acc (acc_rotatedUVW acc tp) tol tp
        (beginRecompute tp (acc_rotatedUVW acc tp) s)
      = Normal tol s1 ->
      rotatedUVW fuel meta tp s = Throws ResidualExceedsTolerance s1).
Proof.
  split; [|split; [|split; [|split]]].
  - intros uvw tol s Hn Hdev.
    assert (E : updatePlaneIfNecessary uvw tol s = fitAndCommit uvw tol s).
    { unfold updatePlaneIfNecessary. rewrite Hdev, Qcltb_irrefl.
      apply Nat.ltb_ge in Hn. rewrite Hn. reflexivity. }
    split; [exact E|]. intros Hns. rewrite E. unfold fitAndCommit.
    rewrite Hns. reflexivity.
  - intros fuel acc tol tp s uvw sm Hdev Hns Htmp.
    unfold updateAdvancedTimePlaneIfNecessary. fold uvw.
    rewrite Hdev, Qcltb_irrefl. unfold searchAdvancedPlane. fold sm.
    rewrite Hns. apply Qcltb_lt in Htmp. rewrite Htmp. reflexivity.
  - intros fuel acc tol tp s adv uvw sm Hdev Hns Htmp Hadv Hns' s'.
    unfold updateAdvancedTimePlaneIfNecessary. fold uvw.
    rewrite Hdev, Qcltb_irrefl. unfold searchAdvancedPlane. fold sm.
    rewrite Hns, Htmp, Qcltb_irrefl.
    assert (Hfwd : advanceLoop (S fuel) acc (length uvw) (fitA sm) (fitB sm)
                     tol (itsPredictTimeInterval s) tp 0 tol s
                   = Normal (tp, 0, tol) s).
    { simpl. rewrite Qcltb_irrefl. reflexivity. }
    rewrite Hfwd. cbn [bind].
    assert (Hback : commitLoop (S fuel) acc (length uvw) tol
                      (itsPredictTimeInterval s) tp tp s
                    = Normal (ConditionFalse tol) s').
    { simpl. rewrite Hadv, Hns'. fold uvw. rewrite Hdev, Qcltb_irrefl.
      reflexivity. }
    rewrite Hback. reflexivity.
  - intros fuel acc n tol shift tp newTP s adv Hdev Hadv Hns.
    simpl. rewrite Hadv, Hns, Hdev, Qcltb_irrefl. reflexivity.
  - intros fuel meta acc tp s s1 tol Hacc Hmon Hchk Htol Hpol.
    rewrite (rotatedUVW_after_policy fuel meta acc tp s s1 tol tol
               Hacc Hmon Htol Hpol).
    pose proof (fitPolicy_preserves itsCheckResidual (fun _ _ _ => eq_refl)
                  fuel acc (acc_rotatedUVW acc tp) tol tp
                  (beginRecompute tp (acc_rotatedUVW acc tp) s)) as Hflag.
    rewrite Hpol, beginRecompute_checkResidual, Hchk in Hflag.
    rewrite Hflag, Qcltb_irrefl. reflexivity.
Qed.

Lemma C10_tolerance_comparisons_witness :
  let tp := qc 0 1 in
  (* reactive policy: no plane yet, deviation 3, tolerance 3 *)
  let s := Example.adapter (qc 3 1) true false (qc 60 1) in
  let tol := maxWDeviation s Example.flat in
  (* predictive policy: plane (2, 0), deviation 2, tolerance 2 *)
  let wide := @mkAccessor Example.world (fun _ => Example.spread)
                (C_c :: nil) in
  let sWide := commitPlane (qc 2 1) 0
                 (Example.adapter (qc 2 1) false true (qc 60 1)) in
  let tolWide := maxWDeviation sWide Example.spread in
  let smWide := lsfSums Example.spread in
  (* predictive policy: plane (1, 1), deviation 1, tolerance 1 *)
  let bent := @mkAccessor Example.world (fun _ => Example.bent)
                (C_c :: nil) in
  let sBent := commitPlane (qc 1 1) (qc 1 1)
                 (Example.adapter (qc 1 1) false true (qc 60 1)) in
  let tolBent := maxWDeviation sBent Example.bent in
  let sBent' := commitPlane (fitA (lsfSums Example.bent))
                  (fitB (lsfSums Example.bent)) sBent in
  (* residual check: one row, deviation 3, tolerance 3 *)
  let one := (Example.row 0 0 3 :: nil) in
  let meta := Example.source (fun _ => one) (C_c :: nil) in
  (updatePlaneIfNecessary Example.flat tol s
   = fitAndCommit Example.flat tol s /\
   planeChangeMonitor (snd (updatePlaneIfNecessary Example.flat tol s))
   = 1%nat) /\
  (tolWide = qc 2 1 /\
   planeDeviation (fitA smWide) (fitB smWide) Example.spread = qc 7 3 /\
   updateAdvancedTimePlaneIfNecessary 5 wide tolWide tp sWide
   = Normal (planeDeviation (fitA smWide) (fitB smWide) Example.spread)
       sWide) /\
  (tolBent = qc 1 1 /\
   updateAdvancedTimePlaneIfNecessary 1 bent tolBent tp sBent
   = Normal (maxWDeviation sBent' Example.bent) sBent' /\
   planeChangeMonitor sBent' = 2%nat) /\
  commitLoop 1 bent 3 tolBent (qc 60 1) tp tp sBent
  = Normal (ConditionFalse tolBent) sBent' /\
  rotatedUVW 0 meta tp s
  = Throws ResidualExceedsTolerance
      (setRotatedUVW (@blankUVW Example.world :: nil) s).
Proof.
  intros tp s tol wide sWide tolWide smWide bent sBent tolBent sBent' one
    meta.
  destruct (@C10_tolerance_comparisons Example.world)
    as (R & P & Q & L & K).
  split; [|split; [|split; [|split]]].
  - destruct (R Example.flat tol s) as [E M]; [simpl; lia | reflexivity |].
    split; [exact E | apply M; vm_compute; reflexivity].
  - split; [qc_closed|]. split; [qc_closed|].
    apply (P 5%nat wide tolWide tp sWide).
    + reflexivity.
    + vm_compute; reflexivity.
    + qc_closed.
  - split; [qc_closed|]. split; [|reflexivity].
    apply (Q 0%nat bent tolBent tp sBent Example.bent).
    + reflexivity.
    + vm_compute; reflexivity.
    + qc_closed.
    + reflexivity.
    + vm_compute; reflexivity.
  - apply (L 0%nat bent 3%nat tolBent (qc 60 1) tp tp sBent Example.bent).
    + reflexivity.
    + reflexivity.
    + vm_compute; reflexivity.
  - apply (K 0%nat meta (@mkAccessor Example.world (fun _ => one) (C_c :: nil))
             tp s _ (itsWTolerance s * C_c / C_c));
      try reflexivity.
    unfold fitPolicy, updatePlaneIfNecessary. simpl.
    f_equal. qc_closed.
Defined.

(** C10 as stated fails at the two comparisons written with [>].  The
    chunk [Example.bent] is the same for every tangent point; no plane has
    been committed, so the deviation on entry is 3, and the tolerance is 1.
    The temporary plane (1, 1) deviates by 1, exactly the tolerance: it is
    not rejected by [AdvancedDeviation > tolerance], and the loop
    [while (AdvancedDeviation < tolerance)] is not entered.  The committing
    loop commits the plane (1, 1), then tests the deviation 3 of the plane
    on entry and goes round; it commits (1, 1) again, tests the deviation
    1 of the plane committed before, and leaves, 1 not being larger than
    the tolerance.  A deviation equal to the tolerance that was treated as
    exceeding it would have ended the call before any commit. *)
Lemma C10_counterexample :
  let tp := qc 0 1 in
  let tol := qc 1 1 in
  let acc := @mkAccessor Example.world (fun _ => Example.bent)
               (C_c :: nil) in
  let s := Example.adapter (qc 1 1) false true (qc 60 1) in
  let sm := lsfSums Example.bent in
  maxWDeviation s Example.bent = qc 3 1 /\
  singular sm = false /\
  fitA sm = qc 1 1 /\ fitB sm = qc 1 1 /\
  planeDeviation (fitA sm) (fitB sm) Example.bent = tol /\
  match advanceLoop 5 acc 3 (fitA sm) (fitB sm) tol (qc 60 1) tp 0
          (planeDeviation (fitA sm) (fitB sm) Example.bent) s with
  | Normal (newTangentPoint, TotalShift, _) _ =>
      newTangentPoint = tp /\ TotalShift = 0
  | _ => False
  end /\
  match commitLoop 5 acc 3 tol (qc 60 1) tp tp s with
  | Normal (ConditionFalse on_exit_deviation) s2 =>
      on_exit_deviation = tol /\ planeChangeMonitor s2 = 2%nat
  | _ => False
  end /\
  match updateAdvancedTimePlaneIfNecessary 5 acc tol tp s with
  | Normal dev s' =>
      dev = tol /\ coeffA s' = qc 1 1 /\ coeffB s' = qc 1 1 /\
      planeChangeMonitor s' = 2%nat
  | _ => False
  end.
Proof.
  intros tp tol acc s sm.
  split; [qc_closed|]. split; [qc_closed|]. split; [qc_closed|].
  split; [qc_closed|]. split; [qc_closed|].
  split; [|split]; vm_compute;
    repeat split; apply Qc_is_canon; reflexivity.
Qed.

(** ** The residual check *)

Lemma commitLoop_singular_deviation `{Casacore} (fuel : nat)
    (acc : IConstDataAccessor) (n : nat) (tol shift : Qc) (tp : MDirection) :
  forall (newTP : MDirection) (s : BestWPlaneDataAccessor),
    match commitLoop fuel acc n tol shift tp newTP s with
    | Normal (ReturnedSingular d) s2 =>
        d = maxWDeviation s2 (acc_rotatedUVW acc tp)
    | _ => True
    end.
Proof.
  induction fuel as [|fuel IH]; intros newTP s; simpl; [exact I|].
  destruct (rowsOf n (acc_rotatedUVW acc
                        (shiftLongitude newTP (- (1) * shift * angle))))
    as [adv|]; [|exact I].
  destruct (singular (lsfSums adv)); [reflexivity|].
  destruct (tol <? maxWDeviation s (acc_rotatedUVW acc tp));
    [apply IH | exact I].
Qed.

(** The deviation a policy returns is the deviation of the chunk from the
    committed plane, except when the predictive policy gives up on a
    temporary plane that is itself out of tolerance: then nothing was
    committed and both deviations are not below the tolerance. *)
Lemma fitPolicy_deviation `{Casacore} (fuel : nat) (acc : IConstDataAccessor)
    (tol : Qc) (tp : MDirection) (s s1 : BestWPlaneDataAccessor) (dev : Qc) :
  fitPolicy fuel acc (acc_rotatedUVW acc tp) tol tp s = Normal dev s1 ->
  dev = maxWDeviation s1 (acc_rotatedUVW acc tp) \/
  (tol < dev /\ s1 = s /\ ~ maxWDeviation s (acc_rotatedUVW acc tp) < tol).
Proof.
  unfold fitPolicy. set (uvw := acc_rotatedUVW acc tp).
  destruct (itsPredictWPlane s).
  - unfold updateAdvancedTimePlaneIfNecessary, searchAdvancedPlane.
    fold uvw.
    destruct (maxWDeviation s uvw <? tol) eqn:Hfirst.
    { intros E. injection E as <- <-. left. reflexivity. }
    destruct (singular (lsfSums uvw)).
    { intros E. injection E as <- <-. left. reflexivity. }
    destruct (tol <? planeDeviation _ _ uvw) eqn:Htmp.
    { intros E. injection E as <- <-. right.
      apply Qcltb_lt in Htmp. apply Qcltb_nlt in Hfirst.
      repeat split; assumption. }
    pose proof (advanceLoop_state fuel acc (length uvw)
                  (fitA (lsfSums uvw)) (fitB (lsfSums uvw)) tol
                  (itsPredictTimeInterval s) s tp 0
                  (planeDeviation (fitA (lsfSums uvw)) (fitB (lsfSums uvw))
                     uvw)) as Hadv.
    destruct (advanceLoop fuel acc _ _ _ tol _ tp 0 _ s)
      as [[[newTP total] d] s'|e s'| | |]; simpl; try discriminate.
    subst s'.
    pose proof (commitLoop_singular_deviation fuel acc (length uvw) tol
                  (itsPredictTimeInterval s) tp newTP s) as Hloop.
    destruct (commitLoop fuel acc _ tol _ tp newTP s)
      as [[d'|d'] s2|e s2| | |]; simpl; try discriminate;
      intros E; injection E as <- <-; left; [exact Hloop | reflexivity].
  - unfold updatePlaneIfNecessary, fitAndCommit.
    destruct ((length uvw <? 2)%nat || (maxWDeviation s uvw <? tol)).
    { intros E. injection E as <- <-. left. reflexivity. }
    destruct (singular (lsfSums uvw));
      intros E; injection E as <- <-; left; reflexivity.
Qed.

Lemma fitPolicy_below_tolerance `{Casacore} (fuel : nat)
    (acc : IConstDataAccessor) (tol : Qc) (tp : MDirection)
    (s s1 : BestWPlaneDataAccessor) (dev : Qc) :
  fitPolicy fuel acc (acc_rotatedUVW acc tp) tol tp s = Normal dev s1 ->
  (dev <? tol) = (maxWDeviation s1 (acc_rotatedUVW acc tp) <? tol).
Proof.
  intros Hpol.
  destruct (fitPolicy_deviation fuel acc tol tp s s1 dev Hpol)
    as [E | (Hgt & Hs & Hn)].
  - rewrite <- E. reflexivity.
  - subst s1. apply Qcltb_nlt in Hn. rewrite Hn.
    apply Qcltb_asym. apply Qcltb_lt. exact Hgt.
Qed.

Lemma largestAbsW_subtractPlane (a b : Qc) (uvw : list UVW) :
  largestAbsW (map (subtractPlane a b) uvw) = planeDeviation a b uvw.
Proof.
  unfold largestAbsW, planeDeviation. generalize 0.
  induction uvw as [|r uvw IH]; intros m; simpl; [reflexivity|].
  replace (fabs (uvw_w r - (a * uvw_u r + b * uvw_v r)))
    with (fabs (a * uvw_u r + b * uvw_v r - uvw_w r))
    by apply Qcabs_Qcminus.
  apply IH.
Qed.

Lemma beginRecompute_setCheckResidual `{Casacore} (b : bool)
    (tp : MDirection) (uvw : list UVW) (s : BestWPlaneDataAccessor) :
  beginRecompute tp uvw (setCheckResidual b s)
  = setCheckResidual b (beginRecompute tp uvw s).
Proof.
  unfold beginRecompute, resizeBuffer. simpl.
  destruct (length (itsRotatedUVW s) =? length uvw)%nat; reflexivity.
Qed.

Lemma toleranceInMetres_setCheckResidual `{Casacore} (b : bool)
    (freq : list Qc) (s : BestWPlaneDataAccessor) (tol : Qc) :
  toleranceInMetres freq s = Normal tol s ->
  toleranceInMetres freq (setCheckResidual b s)
  = Normal tol (setCheckResidual b s).
Proof.
  unfold toleranceInMetres. destruct (maxFreqOf freq) as [m|];
    [|discriminate].
  destruct (ASKAP_DEBUG && negb (0 <? m)); [discriminate|].
  destruct (Qceqb m 0); [discriminate|].
  intros E. injection E as <-. reflexivity.
Qed.

Lemma beginRecompute_predict `{Casacore} (tp : MDirection) (uvw : list UVW)
    (s : BestWPlaneDataAccessor) :
  itsPredictWPlane (beginRecompute tp uvw s) = itsPredictWPlane s.
Proof.
  unfold beginRecompute, resizeBuffer.
  destruct (length (itsRotatedUVW (setLastTangentPoint tp s)) =? length uvw)%nat;
    reflexivity.
Qed.

Lemma beginRecompute_maxWDeviation `{Casacore} (tp : MDirection)
    (uvw rows : list UVW) (s : BestWPlaneDataAccessor) :
  maxWDeviation (beginRecompute tp uvw s) rows = maxWDeviation s rows.
Proof.
  unfold beginRecompute, resizeBuffer.
  destruct (length (itsRotatedUVW (setLastTangentPoint tp s)) =? length uvw)%nat;
    reflexivity.
Qed.

Lemma fitPolicy_reactive `{Casacore} (fuel : nat) (acc : IConstDataAccessor)
    (uvw : list UVW) (tol : Qc) (tp : MDirection)
    (s : BestWPlaneDataAccessor) :
  itsPredictWPlane s = false ->
  fitPolicy fuel acc uvw tol tp s
  = Normal (fst (updatePlaneIfNecessary uvw tol s))
      (snd (updatePlaneIfNecessary uvw tol s)).
Proof.
  intros Hreactive. unfold fitPolicy. rewrite Hreactive.
  destruct (updatePlaneIfNecessary uvw tol s); reflexivity.
Qed.

(** The predictive policy returns without entering its loops when the
    plane on entry is within tolerance, when the fit on the current chunk
    is singular, and when the temporary plane is out of tolerance. *)
Lemma updateAdvancedTime_returns_early `{Casacore} (fuel : nat)
    (acc : IConstDataAccessor) (tol : Qc) (tp : MDirection)
    (s : BestWPlaneDataAccessor) :
  let uvw := acc_rotatedUVW acc tp in
  let sm := lsfSums uvw in
  maxWDeviation s uvw < tol \/ singular sm = true \/
  tol < planeDeviation (fitA sm) (fitB sm) uvw ->
  exists dev, updateAdvancedTimePlaneIfNecessary fuel acc tol tp s
              = Normal dev s.
Proof.
  intros uvw sm Hcase.
  unfold updateAdvancedTimePlaneIfNecessary, searchAdvancedPlane.
  fold uvw. fold sm.
  destruct (maxWDeviation s uvw <? tol) eqn:Hfirst;
    [eexists; reflexivity|].
  destruct (singular sm) eqn:Hsing; [eexists; reflexivity|].
  destruct Hcase as [Hlt | [Hs | Hgt]].
  - apply Qcltb_lt in Hlt. rewrite Hlt in Hfirst. discriminate Hfirst.
  - discriminate Hs.
  - apply Qcltb_lt in Hgt. rewrite Hgt. eexists; reflexivity.
Qed.

(** On a source whose coordinates do not depend on the tangent point the
    temporary plane deviates by the same amount at every advanced tangent
    point: once entered, the loop [while (AdvancedDeviation < tolerance)]
    is never left. *)
Lemma advanceLoop_constant_source `{Casacore} (uvw : list UVW)
    (freq : list Qc) (a b tol shift : Qc) :
  (planeDeviation a b uvw <? tol) = true ->
  forall (fuel : nat) (newTP : MDirection) (total : Qc)
         (s : BestWPlaneDataAccessor),
    advanceLoop fuel (mkAccessor (fun _ => uvw) freq) (length uvw) a b tol
      shift newTP total (planeDeviation a b uvw) s
    = OutOfFuel.
Proof.
  intros Hlt. induction fuel as [|fuel IH]; intros newTP total s; simpl;
    rewrite Hlt; [reflexivity|].
  unfold rowsOf. rewrite Nat.leb_refl, firstn_all. apply IH.
Qed.

Lemma updateAdvancedTime_constant_source `{Casacore} (fuel : nat)
    (uvw : list UVW) (freq : list Qc) (tol : Qc) (tp : MDirection)
    (s : BestWPlaneDataAccessor) :
  let sm := lsfSums uvw in
  ~ maxWDeviation s uvw < tol ->
  singular sm = false ->
  planeDeviation (fitA sm) (fitB sm) uvw < tol ->
  updateAdvancedTimePlaneIfNecessary fuel (mkAccessor (fun _ => uvw) freq)
    tol tp s
  = OutOfFuel.
Proof.
  intros sm Hfirst Hns Htmp.
  unfold updateAdvancedTimePlaneIfNecessary, searchAdvancedPlane.
  cbn [acc_rotatedUVW]. fold sm.
  apply Qcltb_nlt in Hfirst. rewrite Hfirst, Hns.
  apply Qcltb_lt in Htmp. rewrite (Qcltb_asym _ _ Htmp).
  rewrite (advanceLoop_constant_source uvw freq _ _ _ _ Htmp).
  reflexivity.
Qed.

Lemma rotatedUVW_constant_source `{Casacore} (fuel : nat)
    (meta : MetaDataAccessor) (uvw : list UVW) (freq : list Qc)
    (tp : MDirection) (s : BestWPlaneDataAccessor) (tol : Qc) :
  let sm := lsfSums uvw in
  getROAccessor meta = Some (mkAccessor (fun _ => uvw) freq) ->
  sameMonitor (itsUVWChangeMonitor s) (changeMonitor meta) = false ->
  itsPredictWPlane s = true ->
  toleranceInMetres freq (beginRecompute tp uvw s)
  = Normal tol (beginRecompute tp uvw s) ->
  ~ maxWDeviation s uvw < tol ->
  singular sm = false ->
  planeDeviation (fitA sm) (fitB sm) uvw < tol ->
  rotatedUVW fuel meta tp s = OutOfFuel.
Proof.
  intros sm Hacc Hmon Hpred Htol Hfirst Hns Htmp.
  unfold rotatedUVW. rewrite Hacc, Hmon. unfold recomputeUVW.
  cbn [acc_rotatedUVW acc_frequency]. rewrite Htol. cbn [bind].
  unfold fitPolicy. rewrite beginRecompute_predict, Hpred.
  rewrite updateAdvancedTime_constant_source;
    [reflexivity | | exact Hns | exact Htmp].
  rewrite beginRecompute_maxWDeviation. exact Hfirst.
Qed.

(** C3, as the code has it.  A call that detects no change of the source
    performs no residual check, whatever [checkResidual] is.  Take a call
    that detects a change and gets as far as the policy: an accessor is
    assigned and the tolerance in metres [tol] is obtained.  The policy
    returns when it is the reactive one, and also when the predictive one
    finds the plane on entry within tolerance, the fit singular or the
    temporary plane out of tolerance; in the other cases the predictive
    policy enters its loops, which need not be left.  When the policy
    returns, let [achieved] be the deviation of the current coordinates
    from the plane then committed.  With [checkResidual] enabled the call
    fails the residual check if and only if [achieved] is not strictly
    below [tol].  On the same inputs with [checkResidual] disabled the
    call returns normally, with the same committed plane, and the
    coordinates it returns carry the achieved deviation as their largest
    [fabs(w)]. *)
Theorem C3_residual_check `{Casacore} (fuel : nat) (meta : MetaDataAccessor)
    (acc : IConstDataAccessor) (tp : MDirection)
    (s : BestWPlaneDataAccessor) :
  getROAccessor meta = Some acc ->
  let uvw := acc_rotatedUVW acc tp in
  let s0 := beginRecompute tp uvw s in
  let sm := lsfSums uvw in
  (sameMonitor (itsUVWChangeMonitor s) (changeMonitor meta) = true ->
   forall (b : bool) (s' : BestWPlaneDataAccessor),
     rotatedUVW fuel meta tp (setCheckResidual b s)
     <> Throws ResidualExceedsTolerance s') /\
  (sameMonitor (itsUVWChangeMonitor s) (changeMonitor meta) = false ->
   forall tol : Qc,
     toleranceInMetres (acc_frequency acc) s0 = Normal tol s0 ->
     (itsPredictWPlane s = false \/ maxWDeviation s uvw < tol \/
      singular sm = true \/
      tol < planeDeviation (fitA sm) (fitB sm) uvw ->
      exists dev s1, fitPolicy fuel acc uvw tol tp s0 = Normal dev s1) /\
     (forall (dev : Qc) (s1 : BestWPlaneDataAccessor),
         fitPolicy fuel acc uvw tol tp s0 = Normal dev s1 ->
         let achieved := maxWDeviation s1 uvw in
         ((exists s', rotatedUVW fuel meta tp (setCheckResidual true s)
                      = Throws ResidualExceedsTolerance s')
          <-> ~ achieved < tol) /\
         (exists coords s2,
             rotatedUVW fuel meta tp (setCheckResidual false s)
             = Normal coords s2 /\
             coeffA s2 = coeffA s1 /\ coeffB s2 = coeffB s1 /\
             largestAbsW coords = achieved))).
Proof.
  intros Hacc uvw s0 sm. split.
  { intros Hmon b s'. unfold rotatedUVW. rewrite Hacc.
    cbn [setCheckResidual itsUVWChangeMonitor itsLastTangentPoint].
    rewrite Hmon.
    destruct (compareDirections tp (itsLastTangentPoint s) tangentTolerance);
      discriminate. }
  intros Hmon tol Htol. split.
  { intros Hcase. unfold fitPolicy, s0. rewrite beginRecompute_predict.
    destruct (itsPredictWPlane s) eqn:Hpred.
    - destruct Hcase as [Hreactive | Hearly]; [discriminate Hreactive|].
      destruct (updateAdvancedTime_returns_early fuel acc tol tp
                  (beginRecompute tp uvw s)) as [dev Hdev].
      + fold uvw. fold sm. rewrite beginRecompute_maxWDeviation.
        exact Hearly.
      + exists dev, (beginRecompute tp uvw s). exact Hdev.
    - destruct (updatePlaneIfNecessary uvw tol (beginRecompute tp uvw s))
        as [dev s1].
      exists dev, s1. reflexivity. }
  intros dev s1 Hpol achieved.
  assert (Hcall : forall b,
    rotatedUVW fuel meta tp (setCheckResidual b s)
    = if b && negb (achieved <? tol)
      then Throws ResidualExceedsTolerance (setCheckResidual b s1)
      else Normal (map (subtractPlane (coeffA s1) (coeffB s1)) uvw)
             (setRotatedUVW (map (subtractPlane (coeffA s1) (coeffB s1)) uvw)
                (setCheckResidual b s1))).
  { intros b.
    rewrite (rotatedUVW_after_policy fuel meta acc tp (setCheckResidual b s)
               (setCheckResidual b s1) tol dev Hacc Hmon).
    - simpl. unfold achieved, uvw.
      rewrite <- (fitPolicy_below_tolerance fuel acc tol tp s0 s1 dev Hpol).
      reflexivity.
    - rewrite beginRecompute_setCheckResidual.
      apply toleranceInMetres_setCheckResidual. exact Htol.
    - rewrite beginRecompute_setCheckResidual.
      rewrite (frame_fitPolicy _ (frame_setCheckResidual b)).
      fold uvw. fold s0. rewrite Hpol. reflexivity. }
  split.
  - rewrite (Hcall true). simpl. rewrite <- Qcltb_nlt.
    destruct (achieved <? tol); simpl; split.
    + intros [s' E]. discriminate E.
    + intros E. discriminate E.
    + reflexivity.
    + intros _. eexists. reflexivity.
  - rewrite (Hcall false). simpl. do 2 eexists.
    split; [reflexivity|]. split; [reflexivity|]. split; [reflexivity|].
    apply largestAbsW_subtractPlane.
Qed.

Lemma C3_residual_check_witness :
  let uvw := [Example.row 1 0 0; Example.row 0 1 0; Example.row 1 1 1] in
  let meta := Example.source (fun _ => uvw) (C_c :: nil) in
  let tp : @MDirection Example.world := qc 0 1 in
  let s := Example.adapter (qc 1 10) true false 0 in
  let s1 := snd (updatePlaneIfNecessary uvw (itsWTolerance s * C_c / C_c)
                   (beginRecompute tp uvw s)) in
  (coeffA s1 = qc 1 3 /\ coeffB s1 = qc 1 3 /\
   maxWDeviation s1 uvw = qc 1 3) /\
  (exists s', rotatedUVW 0 meta tp (setCheckResidual true s)
              = Throws ResidualExceedsTolerance s') /\
  (exists coords s2,
      rotatedUVW 0 meta tp (setCheckResidual false s)
      = Normal coords s2 /\
      coeffA s2 = coeffA s1 /\ coeffB s2 = coeffB s1 /\
      largestAbsW coords = maxWDeviation s1 uvw).
Proof.
  intros uvw meta tp s s1.
  set (acc := @mkAccessor Example.world (fun _ => uvw) (C_c :: nil)).
  set (tol := itsWTolerance s * C_c / C_c).
  split; [repeat split; qc_closed|].
  destruct (C3_residual_check 0 meta acc tp s eq_refl) as [_ Hrecompute].
  destruct (Hrecompute eq_refl tol eq_refl) as [_ Hcheck].
  assert (Hpol : fitPolicy 0 acc uvw tol tp (beginRecompute tp uvw s)
                 = Normal (fst (updatePlaneIfNecessary uvw tol
                                  (beginRecompute tp uvw s))) s1).
  { apply fitPolicy_reactive. reflexivity. }
  destruct (Hcheck _ s1 Hpol) as [Hon Hoff].
  split.
  - apply Hon. qc_closed.
  - exact Hoff.
Defined.

(** C3 as stated fails on two kinds of call.  First, the predictive policy
    on the chunk [Example.flat], which is the same for every tangent
    point: no plane has been committed, the deviation 3 is not below the
    tolerance 1, and the temporary plane fits the chunk exactly, so the
    search forward in time never finds a tangent point where it is out of
    tolerance.  The call neither fails nor returns, with [checkResidual]
    enabled and disabled, whatever the number of iterations allowed.
    Second, a call served from the buffer: an adapter that was assigned
    from another one (plane A = 2, B = 3, [checkResidual] enabled) and
    whose source holds the chunk [Example.tall], which deviates by 4 from
    that plane, with a tolerance of 1.  The call detects no change, skips
    the check and returns. *)
Lemma C3_counterexample :
  let tp := qc 0 1 in
  let flatSource := Example.source (fun _ => Example.flat) (C_c :: nil) in
  let tallSource := Example.source (fun _ => Example.tall) (C_c :: nil) in
  (~ maxWDeviation (Example.adapter (qc 1 1) true true (qc 60 1))
       Example.flat < qc 1 1 /\
   forall (fuel : nat) (b : bool),
     rotatedUVW fuel flatSource tp
       (Example.adapter (qc 1 1) b true (qc 60 1))
     = OutOfFuel) /\
  match rotatedUVW 0 flatSource tp (Example.adapter (qc 1 1) true false 0)
  with
  | Normal _ other =>
      let self := assign false other
                    (Example.adapter (qc 1 1) true false 0) in
      itsCheckResidual self = true /\
      match toleranceInMetres (C_c :: nil) self with
      | Normal tol _ => tol = qc 1 1
      | _ => False
      end /\
      maxWDeviation self Example.tall = qc 4 1 /\
      match rotatedUVW 0 tallSource tp self with
      | Normal coords self' => self' = self /\ coords = itsRotatedUVW other
      | _ => False
      end
  | _ => False
  end.
Proof.
  intros tp flatSource tallSource. split.
  - split; [qc_closed|]. intros fuel b.
    apply (rotatedUVW_constant_source fuel flatSource Example.flat
             (C_c :: nil) tp (Example.adapter (qc 1 1) b true (qc 60 1))
             (qc 1 1 * C_c / C_c)).
    + reflexivity.
    + reflexivity.
    + reflexivity.
    + destruct b; reflexivity.
    + destruct b; qc_closed.
    + vm_compute; reflexivity.
    + qc_closed.
  - vm_compute. repeat split; apply Qc_is_canon; reflexivity.
Qed.

(** ** The committing loop of the predictive policy *)

(** An iteration of the loop that is left through the condition: the
    deviation tested is the one of the plane the iteration started with,
    and the plane the iteration commits is tested by nothing. *)
Lemma commitLoop_leaves_after_commit `{Casacore} (fuel : nat)
    (acc : IConstDataAccessor) (n : nat) (tol shift : Qc)
    (tp newTP : MDirection) (s : BestWPlaneDataAccessor)
    (advanced_uvw : list UVW) :
  rowsOf n (acc_rotatedUVW acc (shiftLongitude newTP (-(1) * shift * angle)))
  = Some advanced_uvw ->
  singular (lsfSums advanced_uvw) = false ->
  ~ tol < maxWDeviation s (acc_rotatedUVW acc tp) ->
  commitLoop (S fuel) acc n tol shift tp newTP s
  = Normal (ConditionFalse (maxWDeviation s (acc_rotatedUVW acc tp)))
      (commitPlane (fitA (lsfSums advanced_uvw)) (fitB (lsfSums advanced_uvw))
         s).
Proof.
  intros Hrows Hns Hle. simpl. rewrite Hrows, Hns.
  apply Qcltb_nlt in Hle. rewrite Hle. reflexivity.
Qed.

(** C6, evaluated.  On the source [Example.drift], with tolerance 2, time
    step 60 s and no plane committed yet, the search goes two steps ahead
    and the loop commits three planes: A = 2 (fit one step ahead), A = 1
    (fit at the original tangent point) and A = 3 (fit one step behind).
    Each deviation the loop tests was measured before the commit of the
    same iteration: 10 for the plane on entry, 10 for A = 2, 0 for A = 1.
    The loop is left through its condition on the 0 measured for A = 1,
    no fit was singular, and the plane left committed, A = 3, deviates by
    20 from the coordinates at the original tangent point. *)
Lemma C6_last_commit_not_validated :
  let tol := qc 2 1 in
  let tp := qc 0 1 in
  let s := Example.adapter tol false true (qc 60 1) in
  let uvw := Example.drift tp in
  let tmpA := fitA (lsfSums uvw) in
  let tmpB := fitB (lsfSums uvw) in
  match advanceLoop 10 Example.driftAccessor 2 tmpA tmpB tol (qc 60 1) tp 0
          (planeDeviation tmpA tmpB uvw) s with
  | Normal (newTangentPoint, _, _) s1 =>
      Example.stepOf newTangentPoint = qc 2 1 /\
      match commitLoop 10 Example.driftAccessor 2 tol (qc 60 1) tp
              newTangentPoint s1 with
      | Normal (ConditionFalse on_exit_deviation) s2 =>
          on_exit_deviation = 0 /\
          planeChangeMonitor s2 = 3%nat /\
          coeffA s2 = qc 3 1 /\ coeffB s2 = 0 /\
          maxWDeviation s2 uvw = qc 20 1 /\
          tol < maxWDeviation s2 uvw
      | _ => False
      end
  | _ => False
  end /\
  match updateAdvancedTimePlaneIfNecessary 10 Example.driftAccessor tol tp s
  with
  | Normal dev s' =>
      dev = qc 20 1 /\ coeffA s' = qc 3 1 /\ coeffB s' = 0 /\
      planeChangeMonitor s' = 3%nat
  | _ => False
  end.
Proof.
  vm_compute.
  repeat split; try reflexivity; apply Qc_is_canon; reflexivity.
Qed.

(** ** Two calls in a row *)

Lemma rotatedUVW_recompute_inv `{Casacore} (fuel : nat)
    (meta : MetaDataAccessor) (tp : MDirection)
    (s s1 : BestWPlaneDataAccessor) (coords1 : list UVW) :
  sameMonitor (itsUVWChangeMonitor s) (changeMonitor meta) = false ->
  rotatedUVW fuel meta tp s = Normal coords1 s1 ->
  exists (acc : IConstDataAccessor) (tol dev : Qc)
         (sp : BestWPlaneDataAccessor),
    let uvw := acc_rotatedUVW acc tp in
    let s0 := beginRecompute tp uvw s in
    getROAccessor meta = Some acc /\
    toleranceInMetres (acc_frequency acc) s0 = Normal tol s0 /\
    fitPolicy fuel acc uvw tol tp s0 = Normal dev sp /\
    itsCheckResidual sp && negb (dev <? tol) = false /\
    coords1 = map (subtractPlane (coeffA sp) (coeffB sp)) uvw /\
    s1 = setRotatedUVW coords1 sp.
Proof.
  intros Hmon Hcall. unfold rotatedUVW in Hcall.
  destruct (getROAccessor meta) as [acc|]; [|discriminate Hcall].
  rewrite Hmon in Hcall. unfold recomputeUVW in Hcall.
  pose proof (toleranceInMetres_state (acc_frequency acc)
                (beginRecompute tp (acc_rotatedUVW acc tp) s)) as Hst.
  destruct (toleranceInMetres (acc_frequency acc)
              (beginRecompute tp (acc_rotatedUVW acc tp) s))
    as [tol s0|e s0| | |] eqn:Htol; simpl in Hcall; try discriminate Hcall.
  subst s0.
  destruct (fitPolicy fuel acc (acc_rotatedUVW acc tp) tol tp
              (beginRecompute tp (acc_rotatedUVW acc tp) s))
    as [dev sp|e sp| | |] eqn:Hpol; simpl in Hcall; try discriminate Hcall.
  destruct (itsCheckResidual sp && negb (dev <? tol)) eqn:Hchk;
    [discriminate Hcall|].
  injection Hcall as Hc Hs. simpl in Hc.
  exists acc, tol, dev, sp. simpl.
  repeat split; try reflexivity; try assumption.
  - symmetry. exact Hc.
  - rewrite <- Hs, <- Hc. reflexivity.
Qed.

Lemma toleranceInMetres_same_tolerance `{Casacore} (freq : list Qc)
    (s t : BestWPlaneDataAccessor) (tol : Qc) :
  itsWTolerance t = itsWTolerance s ->
  toleranceInMetres freq s = Normal tol s ->
  toleranceInMetres freq t = Normal tol t.
Proof.
  unfold toleranceInMetres. intros HW. rewrite HW.
  destruct (maxFreqOf freq) as [m|]; [|discriminate].
  destruct (ASKAP_DEBUG && negb (0 <? m)); [discriminate|].
  destruct (Qceqb m 0); [discriminate|].
  intros E. injection E as <-. reflexivity.
Qed.

Lemma beginRecompute_members `{Casacore} (tp : MDirection) (uvw : list UVW)
    (s : BestWPlaneDataAccessor) :
  itsWTolerance (beginRecompute tp uvw s) = itsWTolerance s /\
  itsUVWChangeMonitor (beginRecompute tp uvw s) = itsUVWChangeMonitor s /\
  itsPredictWPlane (beginRecompute tp uvw s) = itsPredictWPlane s.
Proof.
  unfold beginRecompute, resizeBuffer.
  destruct (length (itsRotatedUVW (setLastTangentPoint tp s)) =? length uvw)%nat;
    repeat split.
Qed.

(** After a recomputation the next recomputation for the same tangent
    point and the same chunk starts from the adapter as it is. *)
Lemma beginRecompute_again `{Casacore} (tp : MDirection) (uvw : list UVW)
    (sp : BestWPlaneDataAccessor) (coords : list UVW) :
  itsLastTangentPoint sp = tp ->
  length coords = length uvw ->
  beginRecompute tp uvw (setRotatedUVW coords sp) = setRotatedUVW coords sp.
Proof.
  intros Hlast Hlen. unfold beginRecompute, resizeBuffer. simpl.
  rewrite Hlen, Nat.eqb_refl. unfold setLastTangentPoint, setRotatedUVW.
  simpl. rewrite <- Hlast. reflexivity.
Qed.

(** A policy that finds the deviation below the tolerance does nothing. *)
Lemma fitPolicy_within_tolerance `{Casacore} (fuel : nat)
    (acc : IConstDataAccessor) (tol : Qc) (tp : MDirection)
    (s : BestWPlaneDataAccessor) :
  (maxWDeviation s (acc_rotatedUVW acc tp) <? tol) = true ->
  fitPolicy fuel acc (acc_rotatedUVW acc tp) tol tp s
  = Normal (maxWDeviation s (acc_rotatedUVW acc tp)) s.
Proof.
  intros Hlt. unfold fitPolicy, updateAdvancedTimePlaneIfNecessary,
    updatePlaneIfNecessary.
  rewrite Hlt, orb_true_r. destruct (itsPredictWPlane s); reflexivity.
Qed.

(** The reactive policy run a second time on the same chunk commits the
    same coefficients, if it commits at all. *)
Lemma updatePlaneIfNecessary_twice `{Casacore} (uvw : list UVW) (tol : Qc)
    (s : BestWPlaneDataAccessor) :
  let sp := snd (updatePlaneIfNecessary uvw tol s) in
  let sq := snd (updatePlaneIfNecessary uvw tol sp) in
  itsCoeffA sq = itsCoeffA sp /\ itsCoeffB sq = itsCoeffB sp.
Proof.
  intros sp sq. subst sq sp.
  destruct (length uvw <? 2)%nat eqn:Hn.
  { assert (E : forall t, updatePlaneIfNecessary uvw tol t
                          = (maxWDeviation t uvw, t)).
    { intros t. unfold updatePlaneIfNecessary. rewrite Hn. reflexivity. }
    rewrite !E. split; reflexivity. }
  destruct (singular (lsfSums uvw)) eqn:Hs.
  { assert (E : forall t, updatePlaneIfNecessary uvw tol t
                          = (maxWDeviation t uvw, t)).
    { intros t. unfold updatePlaneIfNecessary, fitAndCommit. rewrite Hs.
      destruct (_ || _); reflexivity. }
    rewrite !E. split; reflexivity. }
  destruct (maxWDeviation s uvw <? tol) eqn:Hdev.
  { assert (E : updatePlaneIfNecessary uvw tol s = (maxWDeviation s uvw, s)).
    { unfold updatePlaneIfNecessary. rewrite Hn, Hdev. reflexivity. }
    rewrite E. simpl. rewrite E. split; reflexivity. }
  assert (E : updatePlaneIfNecessary uvw tol s
              = fitAndCommit uvw (maxWDeviation s uvw) s).
  { unfold updatePlaneIfNecessary. rewrite Hn, Hdev. reflexivity. }
  rewrite E. unfold fitAndCommit at 2 4. rewrite Hs. simpl.
  unfold updatePlaneIfNecessary, fitAndCommit. rewrite Hn, Hs. simpl.
  destruct (maxWDeviation (commitPlane _ _ s) uvw <? tol);
    split; reflexivity.
Qed.

(** What the second of two calls does after a first call that recomputed
    the coordinates: it recomputes them again, starting from the plane the
    first call left. *)
Lemma rotatedUVW_second_call `{Casacore} (fuel : nat)
    (meta : MetaDataAccessor) (acc : IConstDataAccessor) (tp : MDirection)
    (s sp : BestWPlaneDataAccessor) (tol dev : Qc) :
  getROAccessor meta = Some acc ->
  sameMonitor (itsUVWChangeMonitor s) (changeMonitor meta) = false ->
  let uvw := acc_rotatedUVW acc tp in
  let s0 := beginRecompute tp uvw s in
  let coords1 := map (subtractPlane (coeffA sp) (coeffB sp)) uvw in
  toleranceInMetres (acc_frequency acc) s0 = Normal tol s0 ->
  fitPolicy fuel acc uvw tol tp s0 = Normal dev sp ->
  forall (d : Qc) (sq : BestWPlaneDataAccessor),
    fitPolicy fuel acc uvw tol tp sp = Normal d sq ->
    rotatedUVW fuel meta tp (setRotatedUVW coords1 sp)
    = if itsCheckResidual sq && negb (d <? tol)
      then Throws ResidualExceedsTolerance (setRotatedUVW coords1 sq)
      else Normal (map (subtractPlane (coeffA sq) (coeffB sq)) uvw)
             (setRotatedUVW (map (subtractPlane (coeffA sq) (coeffB sq)) uvw)
                sq).
Proof.
  intros Hacc Hmon uvw s0 coords1 Htol Hpol d sq Hpol2.
  destruct (beginRecompute_members tp uvw s) as (HW & HM & _).
  pose proof (fitPolicy_preserves itsLastTangentPoint (fun _ _ _ => eq_refl)
                fuel acc uvw tol tp s0) as Hlast.
  pose proof (fitPolicy_preserves itsWTolerance (fun _ _ _ => eq_refl)
                fuel acc uvw tol tp s0) as HWp.
  pose proof (fitPolicy_preserves itsUVWChangeMonitor (fun _ _ _ => eq_refl)
                fuel acc uvw tol tp s0) as HMp.
  rewrite Hpol in Hlast, HWp, HMp. unfold s0 in Hlast.
  rewrite beginRecompute_lastTangentPoint in Hlast.
  assert (Hbegin : beginRecompute tp uvw (setRotatedUVW coords1 sp)
                   = setRotatedUVW coords1 sp).
  { apply beginRecompute_again; [exact Hlast | apply length_map]. }
  rewrite (rotatedUVW_after_policy fuel meta acc tp
             (setRotatedUVW coords1 sp) (setRotatedUVW coords1 sq) tol d
             Hacc).
  - reflexivity.
  - simpl. rewrite HMp. unfold s0. rewrite HM. exact Hmon.
  - fold uvw. rewrite Hbegin.
    apply (toleranceInMetres_same_tolerance _ s0); [|exact Htol].
    simpl. exact HWp.
  - fold uvw. rewrite Hbegin.
    rewrite (frame_fitPolicy _ (frame_setRotatedUVW coords1)).
    rewrite Hpol2. reflexivity.
Qed.

(** X11.  Two calls in a row with the same tangent point and the same
    source, the first of which returns.  If no change of the source is
    detected, or [checkResidual] is enabled, or more generally the first
    call leaves the deviation strictly below the tolerance, the second
    call returns the same coordinates and leaves the adapter as it is:
    same coefficients, same plane epoch.  Under the reactive policy the
    second call returns the same coordinates and keeps the values of the
    coefficients in every case. *)
Theorem consecutive_calls_repeat `{Casacore} (fuel : nat)
    (meta : MetaDataAccessor) (tp : MDirection)
    (s s1 : BestWPlaneDataAccessor) (coords1 : list UVW) :
  rotatedUVW fuel meta tp s = Normal coords1 s1 ->
  ((sameMonitor (itsUVWChangeMonitor s) (changeMonitor meta) = true \/
    itsCheckResidual s = true \/
    (exists (acc : IConstDataAccessor) (tol : Qc),
        getROAccessor meta = Some acc /\
        toleranceInMetres (acc_frequency acc) s1 = Normal tol s1 /\
        maxWDeviation s1 (acc_rotatedUVW acc tp) < tol)) ->
   rotatedUVW fuel meta tp s1 = Normal coords1 s1) /\
  (itsPredictWPlane s = false ->
   exists s2,
     rotatedUVW fuel meta tp s1 = Normal coords1 s2 /\
     coeffA s2 = coeffA s1 /\ coeffB s2 = coeffB s1).
Proof.
  intros Hcall.
  destruct (sameMonitor (itsUVWChangeMonitor s) (changeMonitor meta))
    eqn:Hmon.
  { (* served from the buffer *)
    assert (E : s1 = s /\ rotatedUVW fuel meta tp s = Normal coords1 s).
    { unfold rotatedUVW in Hcall |- *.
      destruct (getROAccessor meta); [|discriminate Hcall].
      rewrite Hmon in Hcall |- *.
      destruct (compareDirections tp (itsLastTangentPoint s) tangentTolerance);
        [|discriminate Hcall].
      injection Hcall as <- <-. split; reflexivity. }
    destruct E as [-> E]. split.
    - intros _. exact E.
    - intros _. exists s. repeat split. exact E. }
  destruct (rotatedUVW_recompute_inv fuel meta tp s s1 coords1 Hmon Hcall)
    as (acc & tol & dev & sp & Hacc & Htol & Hpol & Hchk & Hc & Hs1).
  set (uvw := acc_rotatedUVW acc tp) in *.
  set (s0 := beginRecompute tp uvw s) in *.
  pose proof (rotatedUVW_second_call fuel meta acc tp s sp tol dev Hacc Hmon
                Htol Hpol) as Hsecond.
  fold uvw in Hsecond. rewrite <- Hc in Hsecond. rewrite <- Hs1 in Hsecond.
  (* the second call when the deviation is below the tolerance *)
  assert (Hquiet : (maxWDeviation sp uvw <? tol) = true ->
                   rotatedUVW fuel meta tp s1 = Normal coords1 s1).
  { intros Hlt.
    rewrite (Hsecond _ _ (fitPolicy_within_tolerance fuel acc tol tp sp Hlt)).
    fold uvw. rewrite Hlt. rewrite andb_false_r. rewrite <- Hc.
    rewrite Hs1. reflexivity. }
  (* with the check enabled the first call has left it below *)
  assert (Hflag : itsCheckResidual sp = itsCheckResidual s).
  { pose proof (fitPolicy_preserves itsCheckResidual (fun _ _ _ => eq_refl)
                  fuel acc uvw tol tp s0) as Hp.
    rewrite Hpol in Hp. rewrite Hp. apply beginRecompute_checkResidual. }
  assert (Hchecked : itsCheckResidual s = true ->
                     (maxWDeviation sp uvw <? tol) = true).
  { intros Hon. rewrite Hflag, Hon in Hchk. simpl in Hchk.
    pose proof (fitPolicy_below_tolerance fuel acc tol tp s0 sp dev Hpol)
      as Hb.
    fold uvw in Hb. rewrite <- Hb.
    destruct (dev <? tol); [reflexivity | discriminate Hchk]. }
  split.
  - intros [Hfalse | [Hon | (acc' & tol' & Hacc' & Htol' & Hlt)]].
    + discriminate Hfalse.
    + apply Hquiet, Hchecked, Hon.
    + apply Hquiet. rewrite Hacc in Hacc'. injection Hacc' as <-.
      assert (Htol1 : toleranceInMetres (acc_frequency acc) s1
                      = Normal tol s1).
      { apply (toleranceInMetres_same_tolerance _ s0); [|exact Htol].
        pose proof (fitPolicy_preserves itsWTolerance (fun _ _ _ => eq_refl)
                      fuel acc uvw tol tp s0) as Hp.
        rewrite Hpol in Hp. rewrite Hs1. simpl. exact Hp. }
      rewrite Htol1 in Htol'. injection Htol' as <-.
      apply Qcltb_lt. rewrite Hs1 in Hlt.
      rewrite (frame_maxWDeviation _ (frame_setRotatedUVW coords1)) in Hlt.
      exact Hlt.
  - intros Hreactive.
    destruct (itsCheckResidual s) eqn:Hon.
    { exists s1. repeat split. apply Hquiet, Hchecked. reflexivity. }
    assert (Hpred0 : itsPredictWPlane s0 = false).
    { destruct (beginRecompute_members tp uvw s) as (_ & _ & Hp).
      unfold s0. rewrite Hp. exact Hreactive. }
    assert (Hsp : sp = snd (updatePlaneIfNecessary uvw tol s0)).
    { unfold fitPolicy in Hpol. rewrite Hpred0 in Hpol.
      destruct (updatePlaneIfNecessary uvw tol s0).
      injection Hpol as _ <-. reflexivity. }
    assert (Hpredp : itsPredictWPlane sp = false).
    { pose proof (fitPolicy_preserves itsPredictWPlane (fun _ _ _ => eq_refl)
                    fuel acc uvw tol tp s0) as Hp.
      rewrite Hpol in Hp. rewrite Hp. exact Hpred0. }
    destruct (updatePlaneIfNecessary uvw tol sp) as [d sq] eqn:Hup.
    assert (Hpol2 : fitPolicy fuel acc uvw tol tp sp = Normal d sq).
    { unfold fitPolicy. rewrite Hpredp, Hup. reflexivity. }
    destruct (updatePlaneIfNecessary_twice uvw tol s0) as [HA HB].
    rewrite <- Hsp in HA, HB. rewrite Hup in HA, HB. simpl in HA, HB.
    assert (Hflagq : itsCheckResidual sq = false).
    { pose proof (fitPolicy_preserves itsCheckResidual (fun _ _ _ => eq_refl)
                    fuel acc uvw tol tp sp) as Hp.
      rewrite Hpol2 in Hp. rewrite Hp, Hflag. reflexivity. }
    rewrite (Hsecond d sq Hpol2), Hflagq. simpl.
    unfold coeffA, coeffB in *. rewrite HA, HB. rewrite <- Hc.
    eexists. split; [reflexivity|]. rewrite Hs1. simpl.
    split; assumption.
Qed.

Lemma consecutive_calls_repeat_witness :
  let flat := [Example.row 1 0 2; Example.row 0 1 3; Example.row 1 1 5] in
  let bent := [Example.row 1 0 0; Example.row 0 1 0; Example.row 1 1 1] in
  let tp := qc 0 1 in
  (exists coords1 s1,
      rotatedUVW 0 (Example.source (fun _ => flat) (C_c :: nil)) tp
        (Example.adapter (qc 1 10) true false 0) = Normal coords1 s1 /\
      rotatedUVW 0 (Example.source (fun _ => flat) (C_c :: nil)) tp s1
      = Normal coords1 s1) /\
  (exists coords1 s1 s2,
      rotatedUVW 0 (Example.source (fun _ => bent) (C_c :: nil)) tp
        (Example.adapter (qc 1 10) false false 0) = Normal coords1 s1 /\
      rotatedUVW 0 (Example.source (fun _ => bent) (C_c :: nil)) tp s1
      = Normal coords1 s2 /\
      coeffA s2 = coeffA s1 /\ coeffB s2 = coeffB s1).
Proof.
  intros flat bent tp. split.
  - assert (Hcall : exists coords1 s1,
               rotatedUVW 0 (Example.source (fun _ => flat) (C_c :: nil)) tp
                 (Example.adapter (qc 1 10) true false 0)
               = Normal coords1 s1)
      by (do 2 eexists; vm_compute; reflexivity).
    destruct Hcall as (coords1 & s1 & Hcall).
    exists coords1, s1. split; [exact Hcall|].
    apply (proj1 (@consecutive_calls_repeat Example.world 0 _ tp _ s1
                    coords1 Hcall)).
    right. left. reflexivity.
  - assert (Hcall : exists coords1 s1,
               rotatedUVW 0 (Example.source (fun _ => bent) (C_c :: nil)) tp
                 (Example.adapter (qc 1 10) false false 0)
               = Normal coords1 s1)
      by (do 2 eexists; vm_compute; reflexivity).
    destruct Hcall as (coords1 & s1 & Hcall).
    destruct (proj2 (@consecutive_calls_repeat Example.world 0 _ tp _ s1
                       coords1 Hcall) eq_refl) as (s2 & Hsecond & HA & HB).
    exists coords1, s1, s2. repeat split; assumption.
Defined.

(** C9, evaluated.  Three rows that lie on no plane through the origin
    within a tenth of a wavelength, the reactive policy, [checkResidual]
    disabled.  The first call detects the change of the source, commits
    A = B = 1/3 and leaves a deviation of 1/3; it returns with the source
    epoch remembered by the adapter still the one of the construction.
    The second call, on the same source and tangent point, therefore
    detects a change again: it returns the same coordinates and the same
    values of the coefficients, but it has fitted again and the plane
    epoch has advanced from 1 to 2. *)
Lemma C9_second_call_advances_plane_epoch :
  let bent := [Example.row 1 0 0; Example.row 0 1 0; Example.row 1 1 1] in
  let meta := Example.source (fun _ => bent) (C_c :: nil) in
  let s := Example.adapter (qc 1 10) false false 0 in
  match rotatedUVW 0 meta (qc 0 1) s with
  | Normal coords1 s1 =>
      planeChangeMonitor s1 = 1%nat /\
      itsUVWChangeMonitor s1 = itsUVWChangeMonitor s /\
      sameMonitor (itsUVWChangeMonitor s1) (changeMonitor meta) = false /\
      match rotatedUVW 0 meta (qc 0 1) s1 with
      | Normal coords2 s2 =>
          coords2 = coords1 /\
          coeffA s2 = coeffA s1 /\ coeffB s2 = coeffB s1 /\
          planeChangeMonitor s2 = 2%nat /\
          planeChangeMonitor s2 <> planeChangeMonitor s1
      | _ => False
      end
  | _ => False
  end.
Proof.
  vm_compute. repeat split. discriminate.
Qed.

(** * Further properties of the adapter *)

(** ** The deviation is a maximum *)

Lemma fabs_nonneg (x : Qc) : 0 <= fabs x.
Proof. apply Qcabs_nonneg. Qed.

Lemma deviation_step_max (m d : Qc) :
  let m' := if m <? d then d else m in
  m <= m' /\ d <= m' /\ (m' = m \/ m' = d).
Proof.
  simpl. destruct (m <? d) eqn:E.
  - apply Qcltb_lt in E. repeat split.
    + apply Qclt_le_weak. exact E.
    + apply Qcle_refl.
    + right. reflexivity.
  - apply Qcltb_nlt in E. apply Qcnot_lt_le in E. repeat split.
    + apply Qcle_refl.
    + exact E.
    + left. reflexivity.
Qed.

Lemma planeDeviation_fold (a b : Qc) (uvw : list UVW) :
  forall m : Qc,
    let r := fold_left
               (fun maxDeviation currentUVW =>
                  if maxDeviation <? rowDeviation a b currentUVW
                  then rowDeviation a b currentUVW else maxDeviation)
               uvw m in
    m <= r /\
    (forall row, In row uvw -> rowDeviation a b row <= r) /\
    (r = m \/ exists row, In row uvw /\ rowDeviation a b row = r).
Proof.
  induction uvw as [|x uvw IH]; intros m; simpl.
  - repeat split.
    + apply Qcle_refl.
    + intros row [].
    + left. reflexivity.
  - destruct (deviation_step_max m (rowDeviation a b x)) as (Hm & Hd & Hc).
    destruct (IH (if m <? rowDeviation a b x then rowDeviation a b x else m))
      as (Hle & Hall & Hatt).
    repeat split.
    + exact (Qcle_trans _ _ _ Hm Hle).
    + intros row [-> | Hin].
      * exact (Qcle_trans _ _ _ Hd Hle).
      * apply Hall. exact Hin.
    + destruct Hatt as [E | (row & Hin & E)].
      * destruct Hc as [Hc | Hc].
        -- left. rewrite E. exact Hc.
        -- right. exists x. split; [left; reflexivity|].
           rewrite E. symmetry. exact Hc.
      * right. exists row. split; [right; exact Hin | exact E].
Qed.

(** X1.  [maxWDeviation] is the largest deviation of a row from the
    current plane: it is not negative, no row deviates by more, and on a
    chunk that is not empty some row deviates by exactly this much; on an
    empty chunk it is [0]. *)
Theorem maxWDeviation_is_largest `{Casacore} (s : BestWPlaneDataAccessor)
    (uvw : list UVW) :
  0 <= maxWDeviation s uvw /\
  (forall row, In row uvw ->
     rowDeviation (coeffA s) (coeffB s) row <= maxWDeviation s uvw) /\
  (uvw = [] -> maxWDeviation s uvw = 0) /\
  (uvw <> [] ->
   exists row, In row uvw /\
     rowDeviation (coeffA s) (coeffB s) row = maxWDeviation s uvw).
Proof.
  destruct (planeDeviation_fold (coeffA s) (coeffB s) uvw 0)
    as (Hle & Hall & Hatt).
  change (fold_left _ uvw 0) with (maxWDeviation s uvw) in Hle, Hall, Hatt.
  repeat split.
  - exact Hle.
  - exact Hall.
  - intros ->. reflexivity.
  - intros Hne. destruct Hatt as [E | Hex]; [|exact Hex].
    destruct uvw as [|x rest]; [contradiction Hne; reflexivity|].
    exists x. split; [left; reflexivity|].
    rewrite E. apply Qcle_antisym.
    + rewrite <- E. apply Hall. left. reflexivity.
    + apply fabs_nonneg.
Qed.

Lemma maxWDeviation_is_largest_witness :
  let s := Example.adapter (qc 1 10) false false 0 in
  let uvw := [Example.row 1 0 2; Example.row 0 1 (-3)] in
  rowDeviation (coeffA s) (coeffB s) (Example.row 1 0 2)
  <= maxWDeviation s uvw /\
  exists row, In row uvw /\
    rowDeviation (coeffA s) (coeffB s) row = maxWDeviation s uvw.
Proof.
  intros s uvw.
  destruct (maxWDeviation_is_largest s uvw) as (_ & Hall & _ & Hatt).
  split.
  - apply Hall. left. reflexivity.
  - apply Hatt. discriminate.
Defined.

(** ** The plane epoch and the members a call leaves alone *)

Lemma epochTracksPlane_refl `{Casacore} (s : BestWPlaneDataAccessor) :
  epochTracksPlane s s.
Proof. split; [apply Nat.le_refl | reflexivity]. Qed.

Lemma epochTracksPlane_commit `{Casacore} (a b : Qc)
    (s s' : BestWPlaneDataAccessor) :
  epochTracksPlane (commitPlane a b s) s' -> epochTracksPlane s s'.
Proof.
  unfold epochTracksPlane, planeChangeMonitor. simpl.
  unfold notifyOfChanges. intros [Hle _].
  split; [lia | intros E; rewrite E in Hle; lia].
Qed.

Lemma commitLoop_epoch `{Casacore} (fuel : nat) (acc : IConstDataAccessor)
    (n : nat) (tol shift : Qc) (tp : MDirection) :
  forall (newTP : MDirection) (s : BestWPlaneDataAccessor),
    match commitLoop fuel acc n tol shift tp newTP s with
    | Normal _ s' => epochTracksPlane s s'
    | _ => True
    end.
Proof.
  induction fuel as [|fuel IH]; intros newTP s; simpl; [exact I|].
  destruct (rowsOf n (acc_rotatedUVW acc
                        (shiftLongitude newTP (- (1) * shift * angle))))
    as [adv|]; [|exact I].
  destruct (singular (lsfSums adv)); [apply epochTracksPlane_refl|].
  destruct (tol <? maxWDeviation s (acc_rotatedUVW acc tp)).
  - specialize (IH (shiftLongitude newTP (- (1) * shift * angle))
                  (commitPlane (fitA (lsfSums adv)) (fitB (lsfSums adv)) s)).
    destruct (commitLoop fuel acc n tol shift tp _ _); try exact I.
    exact (epochTracksPlane_commit _ _ _ _ IH).
  - apply (epochTracksPlane_commit (fitA (lsfSums adv)) (fitB (lsfSums adv))).
    apply epochTracksPlane_refl.
Qed.

Lemma fitPolicy_epoch `{Casacore} (fuel : nat) (acc : IConstDataAccessor)
    (uvw : list UVW) (tol : Qc) (tp : MDirection)
    (s : BestWPlaneDataAccessor) :
  match fitPolicy fuel acc uvw tol tp s with
  | Normal _ s' => epochTracksPlane s s'
  | _ => True
  end.
Proof.
  unfold fitPolicy. destruct (itsPredictWPlane s).
  - unfold updateAdvancedTimePlaneIfNecessary, searchAdvancedPlane.
    destruct (maxWDeviation s (acc_rotatedUVW acc tp) <? tol);
      [apply epochTracksPlane_refl|].
    destruct (singular (lsfSums (acc_rotatedUVW acc tp)));
      [apply epochTracksPlane_refl|].
    destruct (tol <? planeDeviation _ _ (acc_rotatedUVW acc tp));
      [apply epochTracksPlane_refl|].
    pose proof (advanceLoop_state fuel acc
                  (length (acc_rotatedUVW acc tp))
                  (fitA (lsfSums (acc_rotatedUVW acc tp)))
                  (fitB (lsfSums (acc_rotatedUVW acc tp)))
                  tol (itsPredictTimeInterval s) s tp 0
                  (planeDeviation (fitA (lsfSums (acc_rotatedUVW acc tp)))
                     (fitB (lsfSums (acc_rotatedUVW acc tp)))
                     (acc_rotatedUVW acc tp))) as Hadv.
    destruct (advanceLoop fuel acc _ _ _ tol _ tp 0 _ s)
      as [[[newTP total] dev] s1|e s1| | |]; simpl; try exact I.
    subst s1.
    pose proof (commitLoop_epoch fuel acc (length (acc_rotatedUVW acc tp))
                  tol (itsPredictTimeInterval s) tp newTP s) as Hloop.
    destruct (commitLoop fuel acc _ tol _ tp newTP s)
      as [[d|d] s2|e s2| | |]; simpl; try exact I; exact Hloop.
  - unfold updatePlaneIfNecessary, fitAndCommit.
    destruct ((length uvw <? 2)%nat || (maxWDeviation s uvw <? tol));
      [apply epochTracksPlane_refl|].
    destruct (singular (lsfSums uvw)); [apply epochTracksPlane_refl|].
    apply (epochTracksPlane_commit (fitA (lsfSums uvw)) (fitB (lsfSums uvw))).
    apply epochTracksPlane_refl.
Qed.

Lemma beginRecompute_plane `{Casacore} (tp : MDirection) (uvw : list UVW)
    (s : BestWPlaneDataAccessor) :
  itsCoeffA (beginRecompute tp uvw s) = itsCoeffA s /\
  itsCoeffB (beginRecompute tp uvw s) = itsCoeffB s /\
  itsPlaneChangeMonitor (beginRecompute tp uvw s) = itsPlaneChangeMonitor s /\
  configOf (beginRecompute tp uvw s) = configOf s.
Proof.
  unfold beginRecompute, resizeBuffer.
  destruct (length (itsRotatedUVW (setLastTangentPoint tp s)) =? length uvw)%nat;
    repeat split.
Qed.

(** X2.  Over a call of [rotatedUVW], whether it returns or throws, the
    plane epoch never goes back, and the coefficients are changed only if
    the plane epoch has advanced. *)
Theorem plane_epoch_tracks_coefficients `{Casacore} (fuel : nat)
    (meta : MetaDataAccessor) (tp : MDirection)
    (s : BestWPlaneDataAccessor) :
  let tracked (s' : BestWPlaneDataAccessor) :=
    (planeChangeMonitor s <= planeChangeMonitor s')%nat /\
    (planeChangeMonitor s' = planeChangeMonitor s ->
     coeffA s' = coeffA s /\ coeffB s' = coeffB s) in
  match rotatedUVW fuel meta tp s with
  | Normal _ s' => tracked s'
  | Throws _ s' => tracked s'
  | _ => True
  end.
Proof.
  intros tracked.
  assert (Hrefl : tracked s).
  { split; [apply Nat.le_refl | intros _; split; reflexivity]. }
  unfold rotatedUVW. destruct (getROAccessor meta) as [acc|]; [|exact Hrefl].
  destruct (sameMonitor (itsUVWChangeMonitor s) (changeMonitor meta)).
  { destruct (compareDirections tp (itsLastTangentPoint s) tangentTolerance);
      exact Hrefl. }
  unfold recomputeUVW. set (uvw := acc_rotatedUVW acc tp).
  destruct (beginRecompute_plane tp uvw s) as (HA & HB & HM & _).
  assert (H0 : tracked (beginRecompute tp uvw s)).
  { unfold tracked, planeChangeMonitor, coeffA, coeffB.
    rewrite HA, HB, HM. split; [apply Nat.le_refl | intros _; split;
                                                    reflexivity]. }
  pose proof (toleranceInMetres_state (acc_frequency acc)
                (beginRecompute tp uvw s)) as Hst.
  destruct (toleranceInMetres (acc_frequency acc) (beginRecompute tp uvw s))
    as [tol s0|e s0| | |]; simpl; try exact I.
  2:{ destruct Hst as [-> _]. exact H0. }
  subst s0.
  pose proof (fitPolicy_epoch fuel acc uvw tol tp (beginRecompute tp uvw s))
    as Hep.
  pose proof (fitPolicy_preserves (fun _ => tt) (fun _ _ _ => eq_refl)
                fuel acc uvw tol tp (beginRecompute tp uvw s)) as Hno.
  destruct (fitPolicy fuel acc uvw tol tp (beginRecompute tp uvw s))
    as [dev sp|e sp| | |]; simpl; try exact I; [|contradiction].
  assert (Hsp : tracked sp).
  { destruct Hep as [Hle Heq]. unfold tracked, planeChangeMonitor in *.
    rewrite HM in Hle, Heq. split; [exact Hle|].
    intros E. rewrite (Heq E). unfold coeffA, coeffB.
    rewrite HA, HB. split; reflexivity. }
  destruct (itsCheckResidual sp && negb (dev <? tol)); exact Hsp.
Qed.

Lemma plane_epoch_tracks_witness :
  let uvw := [Example.row 1 0 2; Example.row 0 1 3] in
  let meta := Example.source (fun _ => uvw) (C_c :: nil) in
  let s := Example.adapter (qc 5 1) true false 0 in
  exists coords s',
    rotatedUVW 0 meta (qc 0 1) s = Normal coords s' /\
    coeffA s' = coeffA s /\ coeffB s' = coeffB s.
Proof.
  intros uvw meta s.
  assert (Hcall : exists coords s',
             rotatedUVW 0 meta (qc 0 1) s = Normal coords s' /\
             planeChangeMonitor s' = planeChangeMonitor s)
    by (do 2 eexists; split; vm_compute; reflexivity).
  destruct Hcall as (coords & s' & Hcall & Hsame).
  pose proof (@plane_epoch_tracks_coefficients Example.world 0 meta (qc 0 1) s)
    as Htr.
  cbv zeta in Htr. rewrite Hcall in Htr.
  exists coords, s'. split; [exact Hcall|]. apply Htr. exact Hsame.
Defined.

(** X3.  A call of [rotatedUVW], whether it returns or throws, leaves the
    configuration and the remembered source epoch as they were: the
    residual flag, the tolerance, [itsUVWChangeMonitor], the predictive
    flag and the predictive time interval. *)
Theorem rotatedUVW_keeps_configuration `{Casacore} (fuel : nat)
    (meta : MetaDataAccessor) (tp : MDirection)
    (s : BestWPlaneDataAccessor) :
  match rotatedUVW fuel meta tp s with
  | Normal _ s' => configOf s' = configOf s
  | Throws _ s' => configOf s' = configOf s
  | _ => True
  end.
Proof.
  unfold rotatedUVW. destruct (getROAccessor meta) as [acc|]; [|reflexivity].
  destruct (sameMonitor (itsUVWChangeMonitor s) (changeMonitor meta)).
  { destruct (compareDirections tp (itsLastTangentPoint s) tangentTolerance);
      reflexivity. }
  unfold recomputeUVW. set (uvw := acc_rotatedUVW acc tp).
  destruct (beginRecompute_plane tp uvw s) as (_ & _ & _ & H0).
  pose proof (toleranceInMetres_state (acc_frequency acc)
                (beginRecompute tp uvw s)) as Hst.
  destruct (toleranceInMetres (acc_frequency acc) (beginRecompute tp uvw s))
    as [tol s0|e s0| | |]; simpl; try exact I.
  2:{ destruct Hst as [-> _]. exact H0. }
  subst s0.
  pose proof (fitPolicy_preserves configOf (fun _ _ _ => eq_refl)
                fuel acc uvw tol tp (beginRecompute tp uvw s)) as Hcfg.
  destruct (fitPolicy fuel acc uvw tol tp (beginRecompute tp uvw s))
    as [dev sp|e sp| | |]; simpl; try exact I; [|contradiction].
  rewrite H0 in Hcfg.
  destruct (itsCheckResidual sp && negb (dev <? tol)); exact Hcfg.
Qed.

(** X4.  What a failing call leaves behind.  Without an accessor, or on a
    tangent point mismatch, the adapter is untouched.  On a chunk without
    spectral channels, or on a frequency that is not positive in a debug
    build, the plane (coefficients and plane epoch) is untouched and the
    new tangent point is remembered.  Only the residual check fails after
    the policy has run: the adapter keeps what the policy committed, and
    the buffer has the size of the chunk but not its corrected
    coordinates. *)
Theorem rotatedUVW_failure_states `{Casacore} (fuel : nat)
    (meta : MetaDataAccessor) (tp : MDirection)
    (s s' : BestWPlaneDataAccessor) (e : AskapError) :
  rotatedUVW fuel meta tp s = Throws e s' ->
  match e with
  | AccessorNotAssigned => getROAccessor meta = None /\ s' = s
  | TangentPointChanged =>
      sameMonitor (itsUVWChangeMonitor s) (changeMonitor meta) = true /\
      s' = s
  | ZeroSpectralChannels | NonPositiveFrequency =>
      exists acc, getROAccessor meta = Some acc /\
        s' = beginRecompute tp (acc_rotatedUVW acc tp) s /\
        coeffA s' = coeffA s /\ coeffB s' = coeffB s /\
        planeChangeMonitor s' = planeChangeMonitor s /\
        itsLastTangentPoint s' = tp
  | ResidualExceedsTolerance =>
      exists acc tol dev,
        getROAccessor meta = Some acc /\
        itsCheckResidual s = true /\
        fitPolicy fuel acc (acc_rotatedUVW acc tp) tol tp
          (beginRecompute tp (acc_rotatedUVW acc tp) s) = Normal dev s' /\
        ~ dev < tol /\
        itsRotatedUVW s'
        = itsRotatedUVW (beginRecompute tp (acc_rotatedUVW acc tp) s)
  end.
Proof.
  unfold rotatedUVW. destruct (getROAccessor meta) as [acc|] eqn:Hacc.
  2:{ intros E. injection E as <- <-. split; reflexivity. }
  destruct (sameMonitor (itsUVWChangeMonitor s) (changeMonitor meta))
    eqn:Hmon.
  { destruct (compareDirections tp (itsLastTangentPoint s) tangentTolerance);
      [discriminate|].
    intros E. injection E as <- <-. split; reflexivity. }
  unfold recomputeUVW. set (uvw := acc_rotatedUVW acc tp).
  destruct (beginRecompute_plane tp uvw s) as (HA & HB & HM & Hcfg).
  pose proof (beginRecompute_lastTangentPoint tp uvw s) as Hlast.
  destruct (toleranceInMetres (acc_frequency acc) (beginRecompute tp uvw s))
    as [tol s0|e0 s0| | |] eqn:Htol; simpl; try discriminate.
  - pose proof (toleranceInMetres_state (acc_frequency acc)
                  (beginRecompute tp uvw s)) as Hst.
    rewrite Htol in Hst. subst s0.
    pose proof (fitPolicy_preserves (fun x => (itsRotatedUVW x,
                                               itsCheckResidual x))
                  (fun _ _ _ => eq_refl)
                  fuel acc uvw tol tp (beginRecompute tp uvw s)) as Hkeep.
    destruct (fitPolicy fuel acc uvw tol tp (beginRecompute tp uvw s))
      as [dev sp|e1 sp| | |] eqn:Hpol; simpl; try discriminate;
      [|contradiction].
    destruct (itsCheckResidual sp && negb (dev <? tol)) eqn:Hchk;
      [|discriminate].
    intros E. injection E as <- <-.
    apply andb_true_iff in Hchk. destruct Hchk as [Hflag Hdev].
    injection Hkeep as Hbuf Hfl.
    exists acc, tol, dev.
    split; [reflexivity|]. split; [|split; [exact Hpol|split]].
    + rewrite <- Hflag, Hfl. symmetry. apply beginRecompute_checkResidual.
    + apply Qcltb_nlt. destruct (dev <? tol); [discriminate Hdev|reflexivity].
    + exact Hbuf.
  - intros E. injection E as <- <-.
    unfold toleranceInMetres in Htol.
    destruct (maxFreqOf (acc_frequency acc)) as [m|].
    + destruct (ASKAP_DEBUG && negb (0 <? m));
        [|destruct (Qceqb m 0); discriminate Htol].
      injection Htol as <- <-. exists acc.
      unfold coeffA, coeffB, planeChangeMonitor.
      repeat split; assumption.
    + injection Htol as <- <-. exists acc.
      unfold coeffA, coeffB, planeChangeMonitor.
      repeat split; assumption.
Qed.

Lemma rotatedUVW_failure_witness :
  let uvw := [Example.row 1 0 0; Example.row 0 1 0; Example.row 1 1 1] in
  let meta := Example.source (fun _ => uvw) (C_c :: nil) in
  let s := Example.adapter (qc 1 10) true false 0 in
  exists s', rotatedUVW 0 meta (qc 0 1) s = Throws ResidualExceedsTolerance s'
             /\ itsRotatedUVW s' = repeat (@blankUVW Example.world) 3.
Proof.
  intros uvw meta s.
  assert (Hcall : exists s', rotatedUVW 0 meta (qc 0 1) s
                             = Throws ResidualExceedsTolerance s')
    by (eexists; vm_compute; reflexivity).
  destruct Hcall as (s' & Hcall). exists s'. split; [exact Hcall|].
  destruct (rotatedUVW_failure_states 0 meta (qc 0 1) s s' _ Hcall)
    as (acc & tol & dev & Hacc & _ & _ & _ & Hbuf).
  injection Hacc as <-. exact Hbuf.
Defined.

(** ** A recomputation depends on the plane and the configuration only *)

Lemma frame_rebase `{Casacore} (t : BestWPlaneDataAccessor) (k : nat) :
  Frame (rebase t k).
Proof. constructor; reflexivity. Qed.

Lemma rebase_same `{Casacore} (s t : BestWPlaneDataAccessor) (k : nat) :
  samePlaneAndConfig s t ->
  itsPlaneChangeMonitor t = (itsPlaneChangeMonitor s + k)%nat ->
  rebase t k s = t.
Proof.
  destruct s, t. unfold samePlaneAndConfig, rebase. simpl.
  intros (-> & -> & -> & -> & -> & ->) ->. reflexivity.
Qed.

Lemma samePlaneAndConfig_sym `{Casacore} (s t : BestWPlaneDataAccessor) :
  samePlaneAndConfig s t -> samePlaneAndConfig t s.
Proof.
  unfold samePlaneAndConfig. intros (H1 & H2 & H3 & H4 & H5 & H6).
  repeat split; symmetry; assumption.
Qed.

Lemma sameOutcome_sym `{Casacore} {A : Type}
    (o1 o2 : Outcome BestWPlaneDataAccessor A) :
  sameOutcome o1 o2 -> sameOutcome o2 o1.
Proof.
  destruct o1, o2; simpl; try tauto;
    intros [E Hs]; (split; [symmetry; exact E
                           | apply samePlaneAndConfig_sym; exact Hs]).
Qed.

Lemma sameOutcome_rebase `{Casacore} {A : Type} (t : BestWPlaneDataAccessor)
    (k : nat) (o : Outcome BestWPlaneDataAccessor A) :
  sameOutcome o (onState (rebase t k) o).
Proof.
  destruct o; simpl; try exact I; split; try reflexivity;
    unfold samePlaneAndConfig; repeat split.
Qed.

Lemma fitPolicy_agree `{Casacore} (fuel : nat) (acc : IConstDataAccessor)
    (uvw : list UVW) (tol : Qc) (tp : MDirection)
    (s t : BestWPlaneDataAccessor) :
  samePlaneAndConfig s t ->
  sameOutcome (fitPolicy fuel acc uvw tol tp s)
              (fitPolicy fuel acc uvw tol tp t).
Proof.
  intros Hst.
  destruct (Nat.le_ge_cases (itsPlaneChangeMonitor s)
              (itsPlaneChangeMonitor t)) as [Hle | Hge].
  - assert (E : fitPolicy fuel acc uvw tol tp t
                = onState (rebase t (itsPlaneChangeMonitor t
                                     - itsPlaneChangeMonitor s))
                    (fitPolicy fuel acc uvw tol tp s)).
    { rewrite <- (frame_fitPolicy _ (frame_rebase _ _)).
      rewrite (rebase_same s t _ Hst); [reflexivity | lia]. }
    rewrite E. apply sameOutcome_rebase.
  - apply sameOutcome_sym.
    assert (E : fitPolicy fuel acc uvw tol tp s
                = onState (rebase s (itsPlaneChangeMonitor s
                                     - itsPlaneChangeMonitor t))
                    (fitPolicy fuel acc uvw tol tp t)).
    { rewrite <- (frame_fitPolicy _ (frame_rebase _ _)).
      rewrite (rebase_same t s _ (samePlaneAndConfig_sym _ _ Hst));
        [reflexivity | lia]. }
    rewrite E. apply sameOutcome_rebase.
Qed.

Lemma beginRecompute_same `{Casacore} (tp : MDirection) (uvw : list UVW)
    (s : BestWPlaneDataAccessor) :
  samePlaneAndConfig (beginRecompute tp uvw s) s.
Proof.
  unfold beginRecompute, resizeBuffer, samePlaneAndConfig.
  destruct (length (itsRotatedUVW (setLastTangentPoint tp s)) =? length uvw)%nat;
    repeat split.
Qed.

Lemma samePlaneAndConfig_trans `{Casacore} (s t u : BestWPlaneDataAccessor) :
  samePlaneAndConfig s t -> samePlaneAndConfig t u -> samePlaneAndConfig s u.
Proof.
  unfold samePlaneAndConfig.
  intros (H1 & H2 & H3 & H4 & H5 & H6) (K1 & K2 & K3 & K4 & K5 & K6).
  repeat split; etransitivity; eassumption.
Qed.

Lemma recomputeUVW_agree `{Casacore} (fuel : nat) (acc : IConstDataAccessor)
    (tp : MDirection) (s t : BestWPlaneDataAccessor) :
  samePlaneAndConfig s t ->
  sameOutcome (recomputeUVW fuel acc tp s) (recomputeUVW fuel acc tp t).
Proof.
  intros Hst. unfold recomputeUVW. set (uvw := acc_rotatedUVW acc tp).
  assert (H0 : samePlaneAndConfig (beginRecompute tp uvw s)
                 (beginRecompute tp uvw t)).
  { apply (samePlaneAndConfig_trans _ s); [apply beginRecompute_same|].
    apply (samePlaneAndConfig_trans _ t); [exact Hst|].
    apply samePlaneAndConfig_sym, beginRecompute_same. }
  generalize dependent (beginRecompute tp uvw t).
  generalize (beginRecompute tp uvw s). clear s t Hst.
  intros s t Hst. unfold toleranceInMetres.
  assert (HW : itsWTolerance s = itsWTolerance t) by apply Hst.
  rewrite HW.
  destruct (maxFreqOf (acc_frequency acc)) as [m|]; simpl;
    [|split; [reflexivity | exact Hst]].
  destruct (ASKAP_DEBUG && negb (0 <? m)); simpl;
    [split; [reflexivity | exact Hst]|].
  destruct (Qceqb m 0); simpl; [exact I|].
  pose proof (fitPolicy_agree fuel acc uvw
                (itsWTolerance t * C_c / m) tp s t Hst) as Hag.
  destruct (fitPolicy fuel acc uvw (itsWTolerance t * C_c / m) tp s)
    as [d1 s1|e1 s1| | |],
    (fitPolicy fuel acc uvw (itsWTolerance t * C_c / m) tp t)
    as [d2 s2|e2 s2| | |]; simpl in *; try contradiction; try exact I.
  - destruct Hag as [<- H12].
    assert (Hc : itsCheckResidual s1 = itsCheckResidual s2) by apply H12.
    assert (HA : coeffA s1 = coeffA s2) by apply H12.
    assert (HB : coeffB s1 = coeffB s2) by apply H12.
    rewrite Hc, HA, HB.
    destruct (itsCheckResidual s2 && negb (d1 <? itsWTolerance t * C_c / m));
      simpl; (split; [reflexivity|]); exact H12.
  - exact Hag.
Qed.

Lemma recomputation_agree_helper `{Casacore} (fuel : nat)
    (meta : MetaDataAccessor) (tp : MDirection)
    (s t : BestWPlaneDataAccessor) :
  samePlaneAndConfig s t ->
  sameMonitor (itsUVWChangeMonitor s) (changeMonitor meta) = false ->
  sameMonitor (itsUVWChangeMonitor t) (changeMonitor meta) = false ->
  sameOutcome (rotatedUVW fuel meta tp s) (rotatedUVW fuel meta tp t).
Proof.
  intros Hst Hs Ht. unfold rotatedUVW.
  destruct (getROAccessor meta) as [acc|].
  - rewrite Hs, Ht. apply recomputeUVW_agree. exact Hst.
  - simpl. split; [reflexivity | exact Hst].
Qed.

(** X5.  What a recomputing call does depends on the configuration and on
    the committed plane only.  Two adapters that agree on these and both
    detect a change of the source end the same way on the same source and
    tangent point: the same coordinates returned or the same error thrown,
    and the same plane committed afterwards - whatever their buffers,
    remembered tangent points and epochs were. *)
Theorem recomputation_ignores_buffer_and_epochs `{Casacore} (fuel : nat)
    (meta : MetaDataAccessor) (tp : MDirection)
    (s t : BestWPlaneDataAccessor) :
  samePlaneAndConfig s t ->
  sameMonitor (itsUVWChangeMonitor s) (changeMonitor meta) = false ->
  sameMonitor (itsUVWChangeMonitor t) (changeMonitor meta) = false ->
  sameOutcome (rotatedUVW fuel meta tp s) (rotatedUVW fuel meta tp t).
Proof.
  intros Hst Hs Ht. apply recomputation_agree_helper; assumption.
Qed.

Lemma recomputation_ignores_witness :
  let uvw := [Example.row 1 0 2; Example.row 0 1 3; Example.row 1 1 6] in
  let meta := Example.source (fun _ => uvw) (C_c :: nil) in
  let s := Example.adapter (qc 1 10) false false 0 in
  let t := @mkAdapter Example.world false (qc 1 10) 0 0 5%nat 7%nat
             (Example.row 9 9 9 :: nil) (qc 3 1) false 0 in
  sameOutcome (rotatedUVW 0 meta (qc 0 1) s) (rotatedUVW 0 meta (qc 0 1) t).
Proof.
  intros uvw meta s t.
  apply (@recomputation_ignores_buffer_and_epochs Example.world).
  - unfold samePlaneAndConfig. repeat split.
  - reflexivity.
  - reflexivity.
Defined.

(** ** Copies and assignments *)

Lemma rotatedUVW_without_change `{Casacore} (fuel : nat)
    (meta : MetaDataAccessor) (acc : IConstDataAccessor) (tp : MDirection)
    (s : BestWPlaneDataAccessor) :
  getROAccessor meta = Some acc ->
  sameMonitor (itsUVWChangeMonitor s) (changeMonitor meta) = true ->
  rotatedUVW fuel meta tp s
  = if compareDirections tp (itsLastTangentPoint s) tangentTolerance
    then Normal (itsRotatedUVW s) s
    else Throws TangentPointChanged s.
Proof.
  intros Hacc Hmon. unfold rotatedUVW. rewrite Hacc, Hmon. reflexivity.
Qed.

(** X6.  A copy has the configuration and the plane of the original.
    As long as the source epoch of the copy is the one it was constructed
    with, a call on the copy computes nothing: it hands out the buffer
    copied from the original (or fails on a tangent point that differs
    from the original's).  Once both the copy and the original detect a
    change, a call on the copy ends as the same call on the original. *)
Theorem copy_behaves_like_original `{Casacore} (fuel : nat)
    (meta0 meta : MetaDataAccessor) (tp : MDirection)
    (other : BestWPlaneDataAccessor) :
  let c := copyConstruct meta0 other in
  samePlaneAndConfig c other /\
  (forall acc, getROAccessor meta = Some acc ->
     sameMonitor (changeMonitor meta0) (changeMonitor meta) = true ->
     rotatedUVW fuel meta tp c
     = if compareDirections tp (itsLastTangentPoint other) tangentTolerance
       then Normal (itsRotatedUVW other) c
       else Throws TangentPointChanged c) /\
  (sameMonitor (changeMonitor meta0) (changeMonitor meta) = false ->
   sameMonitor (itsUVWChangeMonitor other) (changeMonitor meta) = false ->
   sameOutcome (rotatedUVW fuel meta tp c) (rotatedUVW fuel meta tp other)).
Proof.
  intros c.
  assert (Hsame : samePlaneAndConfig c other)
    by (unfold samePlaneAndConfig; repeat split).
  split; [exact Hsame|]. split.
  - intros acc Hacc Hmon.
    apply (rotatedUVW_without_change fuel meta acc tp c Hacc). exact Hmon.
  - intros Hc Ho. apply recomputation_agree_helper; assumption.
Qed.

Lemma copy_behaves_like_original_witness :
  let uvw := [Example.row 1 0 2; Example.row 0 1 3; Example.row 1 1 6] in
  let meta0 := @mkMeta Example.world None 4%nat in
  let meta := @mkMeta Example.world
                (Some (@mkAccessor Example.world (fun _ => uvw) (C_c :: nil)))
                5%nat in
  let other := Example.adapter (qc 1 10) false false 0 in
  sameOutcome (rotatedUVW 0 meta (qc 0 1) (copyConstruct meta0 other))
              (rotatedUVW 0 meta (qc 0 1) other).
Proof.
  intros uvw meta0 meta other.
  destruct (@copy_behaves_like_original Example.world 0 meta0 meta (qc 0 1)
              other) as (_ & _ & Hag).
  apply Hag; reflexivity.
Defined.

(** X7.  Assignment.  Self-assignment changes nothing.  Assignment from
    another adapter takes over its configuration, plane, buffer and
    tangent point and notifies both monitors of the target, so the plane
    epoch of the target advances.  The remembered source epoch is moved by
    a notification, not read again: if it then equals the source epoch,
    the next call hands out the buffer taken from the other adapter
    without computing; if the target and the other adapter both detect a
    change, the call on the target ends as the same call on the other. *)
Theorem assignment_behaviour `{Casacore} (fuel : nat)
    (meta : MetaDataAccessor) (tp : MDirection)
    (other self : BestWPlaneDataAccessor) :
  assign true self self = self /\
  let a := assign false other self in
  samePlaneAndConfig a other /\
  planeChangeMonitor a = notifyOfChanges (planeChangeMonitor self) /\
  itsRotatedUVW a = itsRotatedUVW other /\
  (forall acc, getROAccessor meta = Some acc ->
     sameMonitor (notifyOfChanges (itsUVWChangeMonitor self))
       (changeMonitor meta) = true ->
     rotatedUVW fuel meta tp a
     = if compareDirections tp (itsLastTangentPoint other) tangentTolerance
       then Normal (itsRotatedUVW other) a
       else Throws TangentPointChanged a) /\
  (sameMonitor (notifyOfChanges (itsUVWChangeMonitor self))
     (changeMonitor meta) = false ->
   sameMonitor (itsUVWChangeMonitor other) (changeMonitor meta) = false ->
   sameOutcome (rotatedUVW fuel meta tp a) (rotatedUVW fuel meta tp other)).
Proof.
  split; [reflexivity|]. intros a.
  assert (Hsame : samePlaneAndConfig a other)
    by (unfold samePlaneAndConfig; repeat split).
  split; [exact Hsame|]. split; [reflexivity|]. split; [reflexivity|].
  split.
  - intros acc Hacc Hmon.
    apply (rotatedUVW_without_change fuel meta acc tp a Hacc). exact Hmon.
  - intros Ha Ho.
    apply recomputation_agree_helper; assumption.
Qed.

Lemma assignment_behaviour_witness :
  let uvw := [Example.row 1 0 2; Example.row 0 1 3; Example.row 1 1 6] in
  let meta := Example.source (fun _ => uvw) (C_c :: nil) in
  let other := @mkAdapter Example.world false (qc 1 10) (qc 2 1) (qc 3 1)
                 0%nat 4%nat uvw (qc 0 1) false 0 in
  let self := Example.adapter (qc 1 1) true false 0 in
  rotatedUVW 0 meta (qc 0 1) (assign false other self)
  = Normal uvw (assign false other self).
Proof.
  intros uvw meta other self.
  destruct (@assignment_behaviour Example.world 0 meta (qc 0 1) other self)
    as (_ & _ & _ & _ & Hserved & _).
  apply (Hserved (@mkAccessor Example.world (fun _ => uvw) (C_c :: nil)));
    reflexivity.
Defined.

(** ** The search forward in time *)

Lemma advancedBy_succ `{Casacore} (k : nat) (shift : Qc) (tp : MDirection) :
  advancedBy k shift (shiftLongitude tp shift) = advancedBy (S k) shift tp.
Proof. unfold advancedBy. symmetry. apply Nat.iter_succ_r. Qed.

Lemma totalAfter_succ (k : nat) (TimeShift total : Qc) :
  totalAfter k TimeShift (total + TimeShift) = totalAfter (S k) TimeShift total.
Proof.
  unfold totalAfter. symmetry.
  exact (Nat.iter_succ_r k Qc (fun x => x + TimeShift) total).
Qed.

(** X8.  When the loop that advances the tangent point returns, it has
    made some number [k] of steps, at most the fuel: the tangent point is
    the starting one shifted [k] times by [TimeShift * angle], the total
    shift has grown by [k] times [TimeShift], the adapter is untouched, and
    the deviation of the temporary plane is not below the tolerance there,
    while it was below the tolerance at the start (if [k > 0]) and at every
    step before the last. *)
Theorem advanceLoop_brackets_crossing `{Casacore} (acc : IConstDataAccessor)
    (n : nat) (a b tol TimeShift : Qc) (s : BestWPlaneDataAccessor) :
  forall (fuel : nat) (tp tp' : MDirection) (total dev total' dev' : Qc)
         (s' : BestWPlaneDataAccessor),
    advanceLoop fuel acc n a b tol TimeShift tp total dev s
    = Normal (tp', total', dev') s' ->
    exists k : nat,
      (k <= fuel)%nat /\
      tp' = advancedBy k (TimeShift * angle) tp /\
      total' = totalAfter k TimeShift total /\
      s' = s /\
      ~ dev' < tol /\
      (k = 0%nat -> dev' = dev) /\
      ((0 < k)%nat ->
       dev < tol /\
       exists rows, rowsOf n (acc_rotatedUVW acc tp') = Some rows /\
                    dev' = planeDeviation a b rows) /\
      (forall j : nat, (0 < j < k)%nat ->
         exists rows,
           rowsOf n (acc_rotatedUVW acc
                       (advancedBy j (TimeShift * angle) tp)) = Some rows /\
           planeDeviation a b rows < tol).
Proof.
  induction fuel as [|fuel IH]; intros tp tp' total dev total' dev' s' Hrun;
    simpl in Hrun; destruct (dev <? tol) eqn:Hdev;
    try discriminate Hrun.
  - injection Hrun as <- <- <- <-. exists 0%nat.
    apply Qcltb_nlt in Hdev.
    repeat split; try reflexivity; try assumption; try lia.
  - destruct (rowsOf n (acc_rotatedUVW acc
                          (shiftLongitude tp (TimeShift * angle))))
      as [rows|] eqn:Hrows; [|discriminate Hrun].
    destruct (IH _ _ _ _ _ _ _ Hrun)
      as (k & Hk & Htp & Htot & Hs & Hout & Hzero & Hpos & Hmid).
    exists (S k). apply Qcltb_lt in Hdev.
    rewrite advancedBy_succ in Htp. rewrite totalAfter_succ in Htot.
    split; [lia|]. split; [exact Htp|]. split; [exact Htot|].
    split; [exact Hs|]. split; [exact Hout|]. split; [intros E; lia|].
    split.
    + intros _. split; [exact Hdev|].
      destruct k as [|k'].
      * exists rows. rewrite Htp. split; [exact Hrows|].
        apply Hzero. reflexivity.
      * destruct Hpos as [_ Hex]; [lia | exact Hex].
    + intros j Hj. destruct j as [|j']; [lia|].
      destruct j' as [|j''].
      * exists rows. split; [exact Hrows|].
        destruct Hpos as [Hlt _]; [lia | exact Hlt].
      * destruct (Hmid (S j'')) as (rows' & Hr & Hl); [lia|].
        exists rows'. rewrite advancedBy_succ in Hr. split; assumption.
  - injection Hrun as <- <- <- <-. exists 0%nat.
    apply Qcltb_nlt in Hdev.
    repeat split; try reflexivity; try assumption; try lia.
Qed.

Lemma advanceLoop_brackets_witness :
  let tol := qc 2 1 in
  let s := Example.adapter tol false true (qc 60 1) in
  exists tp' total' dev',
    advanceLoop 10 Example.driftAccessor 2 (qc 1 1) 0 tol (qc 60 1) (qc 0 1)
      0 0 s = Normal (tp', total', dev') s /\
    ~ dev' < tol.
Proof.
  intros tol s.
  assert (Hrun : exists tp' total' dev',
             advanceLoop 10 Example.driftAccessor 2 (qc 1 1) 0 tol (qc 60 1)
               (qc 0 1) 0 0 s = Normal (tp', total', dev') s)
    by (do 3 eexists; vm_compute; reflexivity).
  destruct Hrun as (tp' & total' & dev' & Hrun).
  destruct (advanceLoop_brackets_crossing _ _ _ _ _ _ _ _ _ _ _ _ _ _ _ Hrun)
    as (k & _ & _ & _ & _ & Hout & _).
  exists tp', total', dev'. split; [exact Hrun | exact Hout].
Defined.

(** ** The committing loop *)

(** X9.  When the committing loop is left through its condition, the
    deviation it tested is not above the tolerance and at least one plane
    has been committed; if the plane on entry deviates by more than the
    tolerance at the original tangent point, at least two planes have been
    committed, the tangent point having been stepped back as many times. *)
Theorem commitLoop_commits_before_leaving `{Casacore} (fuel : nat)
    (acc : IConstDataAccessor) (n : nat) (tol shift : Qc) (tp : MDirection) :
  forall (newTP : MDirection) (s s' : BestWPlaneDataAccessor) (d : Qc),
    commitLoop fuel acc n tol shift tp newTP s
    = Normal (ConditionFalse d) s' ->
    ~ tol < d /\
    (planeChangeMonitor s + 1 <= planeChangeMonitor s')%nat /\
    (tol < maxWDeviation s (acc_rotatedUVW acc tp) ->
     (planeChangeMonitor s + 2 <= planeChangeMonitor s')%nat).
Proof.
  induction fuel as [|fuel IH]; intros newTP s s' d Hrun; simpl in Hrun;
    [discriminate Hrun|].
  destruct (rowsOf n (acc_rotatedUVW acc
                        (shiftLongitude newTP (- (1) * shift * angle))))
    as [adv|]; [|discriminate Hrun].
  destruct (singular (lsfSums adv)); [discriminate Hrun|].
  destruct (tol <? maxWDeviation s (acc_rotatedUVW acc tp)) eqn:Htest.
  - destruct (IH _ _ _ _ Hrun) as (Hd & Hone & _).
    unfold planeChangeMonitor in *. simpl in Hone.
    unfold notifyOfChanges in Hone. split; [exact Hd|].
    revert Hone.
    generalize (itsPlaneChangeMonitor s) (itsPlaneChangeMonitor s').
    unfold ChangeMonitor. intros m m' Hone. split; [lia | intros _; lia].
  - injection Hrun as <- <-. apply Qcltb_nlt in Htest.
    unfold planeChangeMonitor. simpl. unfold notifyOfChanges.
    split; [exact Htest|]. split; [|intros Hgt; contradiction].
    generalize (itsPlaneChangeMonitor s). unfold ChangeMonitor.
    intros m. lia.
Qed.

Lemma commitLoop_commits_witness :
  let tol := qc 2 1 in
  let s := Example.adapter tol false true (qc 60 1) in
  let start := @advancedBy Example.world 2 (qc 60 1 * @angle Example.world)
                 (qc 0 1) in
  exists d s',
    commitLoop 10 Example.driftAccessor 2 tol (qc 60 1) (qc 0 1) start s
    = Normal (ConditionFalse d) s' /\
    (planeChangeMonitor s + 2 <= planeChangeMonitor s')%nat.
Proof.
  intros tol s start.
  assert (Hrun : exists d s',
             commitLoop 10 Example.driftAccessor 2 tol (qc 60 1) (qc 0 1)
               start s = Normal (ConditionFalse d) s')
    by (do 2 eexists; vm_compute; reflexivity).
  destruct Hrun as (d & s' & Hrun).
  exists d, s'. split; [exact Hrun|].
  destruct (commitLoop_commits_before_leaving _ _ _ _ _ _ _ _ _ _ Hrun)
    as (_ & _ & Htwo).
  apply Htwo. qc_closed.
Defined.

(** ** What the returned deviation describes *)

(** X10.  The deviation returned by [updatePlaneIfNecessary] is always
    the deviation of the chunk from the plane left committed.  The one
    returned by [updateAdvancedTimePlaneIfNecessary] is that too, except
    when the temporary plane fitted to the current chunk is itself out of
    tolerance: then the deviation of that temporary plane is returned,
    which is above the tolerance, and nothing has been committed. *)
Theorem returned_deviation_describes_plane `{Casacore} :
  (forall (uvw : list UVW) (tol : Qc) (s : BestWPlaneDataAccessor),
      fst (updatePlaneIfNecessary uvw tol s)
      = maxWDeviation (snd (updatePlaneIfNecessary uvw tol s)) uvw) /\
  (forall (fuel : nat) (acc : IConstDataAccessor) (tol : Qc)
          (tp : MDirection) (s s' : BestWPlaneDataAccessor) (dev : Qc),
      updateAdvancedTimePlaneIfNecessary fuel acc tol tp s = Normal dev s' ->
      let uvw := acc_rotatedUVW acc tp in
      dev = maxWDeviation s' uvw \/
      (s' = s /\ tol < dev /\
       dev = planeDeviation (fitA (lsfSums uvw)) (fitB (lsfSums uvw)) uvw /\
       ~ maxWDeviation s uvw < tol)).
Proof.
  split.
  - intros uvw tol s. unfold updatePlaneIfNecessary, fitAndCommit.
    destruct ((length uvw <? 2)%nat || (maxWDeviation s uvw <? tol));
      [reflexivity|].
    destruct (singular (lsfSums uvw)); reflexivity.
  - intros fuel acc tol tp s s' dev.
    unfold updateAdvancedTimePlaneIfNecessary, searchAdvancedPlane.
    set (uvw := acc_rotatedUVW acc tp). simpl.
    destruct (maxWDeviation s uvw <? tol) eqn:Hfirst.
    { intros E. injection E as <- <-. left. reflexivity. }
    destruct (singular (lsfSums uvw)).
    { intros E. injection E as <- <-. left. reflexivity. }
    destruct (tol <? planeDeviation _ _ uvw) eqn:Htmp.
    { intros E. injection E as <- <-. right.
      apply Qcltb_lt in Htmp. apply Qcltb_nlt in Hfirst.
      repeat split; assumption. }
    pose proof (advanceLoop_state fuel acc (length uvw)
                  (fitA (lsfSums uvw)) (fitB (lsfSums uvw)) tol
                  (itsPredictTimeInterval s) s tp 0
                  (planeDeviation (fitA (lsfSums uvw)) (fitB (lsfSums uvw))
                     uvw)) as Hadv.
    destruct (advanceLoop fuel acc _ _ _ tol _ tp 0 _ s)
      as [[[newTP total] d] s1|e s1| | |]; simpl; try discriminate.
    subst s1.
    pose proof (commitLoop_singular_deviation fuel acc (length uvw) tol
                  (itsPredictTimeInterval s) tp newTP s) as Hloop.
    destruct (commitLoop fuel acc _ tol _ tp newTP s)
      as [[d'|d'] s2|e s2| | |]; simpl; try discriminate;
      intros E; injection E as <- <-; left; [exact Hloop | reflexivity].
Qed.

Lemma returned_deviation_witness :
  let uvw := [Example.row 1 0 0; Example.row 0 1 0; Example.row 1 1 1] in
  let acc := @mkAccessor Example.world (fun _ => uvw) (C_c :: nil) in
  let s := Example.adapter (qc 1 10) false true (qc 60 1) in
  exists dev,
    updateAdvancedTimePlaneIfNecessary 5 acc (qc 1 10) (qc 0 1) s
    = Normal dev s /\ qc 1 10 < dev.
Proof.
  intros uvw acc s.
  set (dev := planeDeviation (fitA (lsfSums uvw)) (fitB (lsfSums uvw)) uvw).
  assert (Hrun : updateAdvancedTimePlaneIfNecessary 5 acc (qc 1 10) (qc 0 1) s
                 = Normal dev s)
    by (vm_compute; reflexivity).
  exists dev. split; [exact Hrun|].
  destruct (proj2 (@returned_deviation_describes_plane Example.world)
              5%nat acc (qc 1 10) (qc 0 1) s s dev Hrun)
    as [E | (_ & Hgt & _)]; [|exact Hgt].
  exfalso. apply (f_equal this) in E. vm_compute in E. discriminate E.
Defined.

(** ** A search that does not end *)

(** X12.  The loop that advances the tangent point is left only at a
    tangent point where the temporary plane is out of tolerance.  If its
    deviation is below the tolerance at the start and at each of the first
    [fuel] advanced tangent points, the loop is still running after [fuel]
    iterations. *)
Theorem advanceLoop_runs_on `{Casacore} (acc : IConstDataAccessor)
    (n : nat) (a b tol TimeShift : Qc) (s : BestWPlaneDataAccessor) :
  forall (fuel : nat) (tp : MDirection) (total dev : Qc),
    dev < tol ->
    (forall j : nat, (0 < j <= fuel)%nat ->
       exists rows,
         rowsOf n (acc_rotatedUVW acc (advancedBy j (TimeShift * angle) tp))
         = Some rows /\
         planeDeviation a b rows < tol) ->
    advanceLoop fuel acc n a b tol TimeShift tp total dev s = OutOfFuel.
Proof.
  induction fuel as [|fuel IH]; intros tp total dev Hdev Hall; simpl;
    apply Qcltb_lt in Hdev; rewrite Hdev; [reflexivity|].
  destruct (Hall 1%nat) as (rows & Hrows & Hlt); [lia|].
  change (advancedBy 1 (TimeShift * angle) tp)
    with (shiftLongitude tp (TimeShift * angle)) in Hrows.
  rewrite Hrows. apply IH; [exact Hlt|].
  intros j Hj. rewrite advancedBy_succ. apply Hall. lia.
Qed.

Lemma advanceLoop_runs_on_witness :
  let s := Example.adapter (qc 1 1) false true (qc 60 1) in
  let acc := @mkAccessor Example.world (fun _ => Example.flat)
               (C_c :: nil) in
  advanceLoop 7 acc 2 (qc 2 1) (qc 3 1) (qc 1 1) (qc 60 1) (qc 0 1) 0 0 s
  = OutOfFuel.
Proof.
  intros s acc.
  apply (@advanceLoop_runs_on Example.world acc 2 (qc 2 1) (qc 3 1) (qc 1 1)
           (qc 60 1) s 7 (qc 0 1) 0 0).
  - qc_closed.
  - intros j _. exists Example.flat. split; [reflexivity | qc_closed].
Defined.

(** X13.  A call under the predictive policy on a source whose coordinates
    and frequencies do not depend on the tangent point: when the plane on
    entry is out of tolerance and the plane fitted to the chunk is within
    tolerance, the call does not return, however many iterations are
    allowed. *)
Theorem predictive_call_on_steady_source `{Casacore}
    (meta : MetaDataAccessor) (uvw : list UVW) (freq : list Qc)
    (tp : MDirection) (s : BestWPlaneDataAccessor) (tol : Qc) :
  let sm := lsfSums uvw in
  getROAccessor meta = Some (mkAccessor (fun _ => uvw) freq) ->
  sameMonitor (itsUVWChangeMonitor s) (changeMonitor meta) = false ->
  itsPredictWPlane s = true ->
  toleranceInMetres freq (beginRecompute tp uvw s)
  = Normal tol (beginRecompute tp uvw s) ->
  ~ maxWDeviation s uvw < tol ->
  singular sm = false ->
  planeDeviation (fitA sm) (fitB sm) uvw < tol ->
  forall fuel : nat, rotatedUVW fuel meta tp s = OutOfFuel.
Proof.
  intros sm Hacc Hmon Hpred Htol Hfirst Hns Htmp fuel.
  apply (rotatedUVW_constant_source fuel meta uvw freq tp s tol);
    assumption.
Qed.

Lemma predictive_call_on_steady_source_witness :
  rotatedUVW 1000 (Example.source (fun _ => Example.flat) (C_c :: nil))
    (qc 0 1) (Example.adapter (qc 1 1) false true (qc 60 1))
  = OutOfFuel.
Proof.
  apply (@predictive_call_on_steady_source Example.world
           (Example.source (fun _ => Example.flat) (C_c :: nil))
           Example.flat (C_c :: nil) (qc 0 1)
           (Example.adapter (qc 1 1) false true (qc 60 1))
           (qc 1 1 * C_c / C_c)).
  - reflexivity.
  - reflexivity.
  - reflexivity.
  - reflexivity.
  - qc_closed.
  - vm_compute; reflexivity.
  - qc_closed.
Defined.

(** ** The first call on a new adapter *)

Lemma largestAbsW_zero_plane (uvw : list UVW) :
  planeDeviation 0 0 uvw = largestAbsW uvw.
Proof.
  unfold planeDeviation, largestAbsW.
  match goal with
  | |- fold_left ?F _ _ = fold_left ?G _ _ =>
      assert (E : forall m : Qc, fold_left F uvw m = fold_left G uvw m)
  end; [|apply E].
  induction uvw as [|r uvw IH]; intros m; simpl; [reflexivity|].
  replace (fabs (0 * uvw_u r + 0 * uvw_v r - uvw_w r)) with (fabs (uvw_w r)).
  - apply IH.
  - unfold fabs. rewrite <- (Qcabs_opp (uvw_w r)). f_equal. ring.
Qed.

Lemma subtractPlane_zero (uvw : list UVW) :
  map (subtractPlane 0 0) uvw = uvw.
Proof.
  induction uvw as [|r uvw IH]; simpl; [reflexivity|].
  rewrite IH. f_equal. destruct r as [u v w]. unfold subtractPlane. simpl.
  f_equal. ring.
Qed.

Lemma Qceqb_positive (m : Qc) : 0 < m -> Qceqb m 0 = false.
Proof.
  intros Hm. unfold Qceqb.
  assert (E : (m ?= 0) = Gt) by (apply Qcgt_alt; exact Hm).
  rewrite E. reflexivity.
Qed.

(** X14.  The first call on an adapter made by the constructor, once the
    source epoch has moved on from the one seen at construction.  The
    policy is the reactive one and no plane has been committed, so the
    deviation tested is the largest [fabs(w)] of the chunk.  If the chunk
    has channels, its frequency of reference is positive and every
    [fabs(w)] is below the tolerance in metres, the call returns the
    coordinates of the chunk as they are, commits no plane and remembers
    the tangent point. *)
Theorem first_call_within_tolerance `{Casacore} (fuel : nat)
    (meta0 meta : MetaDataAccessor) (acc : IConstDataAccessor)
    (tolerance : Qc) (checkResidual : bool) (planeMonitor : ChangeMonitor)
    (lastTangentPoint tp : MDirection) (predictTimeInterval maxFreq : Qc) :
  let s := construct meta0 tolerance checkResidual planeMonitor
             lastTangentPoint predictTimeInterval in
  let uvw := acc_rotatedUVW acc tp in
  getROAccessor meta = Some acc ->
  sameMonitor (changeMonitor meta0) (changeMonitor meta) = false ->
  maxFreqOf (acc_frequency acc) = Some maxFreq ->
  0 < maxFreq ->
  largestAbsW uvw < tolerance * C_c / maxFreq ->
  rotatedUVW fuel meta tp s
  = Normal uvw (setRotatedUVW uvw (setLastTangentPoint tp s)) /\
  coeffA s = 0 /\ coeffB s = 0.
Proof.
  intros s uvw Hacc Hmon Hfreq Hpos Hsmall.
  split; [|split; reflexivity].
  unfold rotatedUVW. rewrite Hacc.
  change (itsUVWChangeMonitor s) with (changeMonitor meta0). rewrite Hmon.
  unfold recomputeUVW. fold uvw.
  set (s0 := beginRecompute tp uvw s).
  assert (Htol : toleranceInMetres (acc_frequency acc) s0
                 = Normal (tolerance * C_c / maxFreq) s0).
  { unfold toleranceInMetres. rewrite Hfreq.
    rewrite (proj2 (Qcltb_lt 0 maxFreq) Hpos), (Qceqb_positive _ Hpos).
    rewrite andb_false_r. unfold s0.
    unfold beginRecompute, resizeBuffer.
    destruct (length (itsRotatedUVW (setLastTangentPoint tp s))
              =? length uvw)%nat; reflexivity. }
  rewrite Htol. cbn [bind].
  assert (Hdev : maxWDeviation s0 uvw = largestAbsW uvw).
  { unfold s0. rewrite beginRecompute_maxWDeviation.
    apply largestAbsW_zero_plane. }
  assert (Hpol : fitPolicy fuel acc uvw (tolerance * C_c / maxFreq) tp s0
                 = Normal (largestAbsW uvw) s0).
  { rewrite fitPolicy_reactive.
    - unfold updatePlaneIfNecessary. rewrite Hdev.
      rewrite (proj2 (Qcltb_lt _ _) Hsmall), orb_true_r. reflexivity.
    - unfold s0. rewrite beginRecompute_predict. reflexivity. }
  rewrite Hpol. cbn [bind].
  rewrite (proj2 (Qcltb_lt _ _) Hsmall). rewrite andb_false_r.
  assert (HA : coeffA s0 = 0)
    by (destruct (beginRecompute_plane tp uvw s) as (E & _); exact E).
  assert (HB : coeffB s0 = 0)
    by (destruct (beginRecompute_plane tp uvw s) as (_ & E & _); exact E).
  rewrite HA, HB, subtractPlane_zero.
  unfold s0, beginRecompute, resizeBuffer.
  destruct (length (itsRotatedUVW (setLastTangentPoint tp s))
            =? length uvw)%nat; reflexivity.
Qed.

Lemma first_call_within_tolerance_witness :
  let meta0 := @mkMeta Example.world None 0%nat in
  let meta := Example.source (fun _ => Example.flat) (C_c :: nil) in
  let tp : @MDirection Example.world := qc 0 1 in
  let s := construct meta0 (qc 5 1) true 0%nat tp 0 in
  rotatedUVW 0 meta tp s
  = Normal Example.flat
      (setRotatedUVW Example.flat (setLastTangentPoint tp s)).
Proof.
  intros meta0 meta tp s.
  apply (@first_call_within_tolerance Example.world 0 meta0 meta
           (@mkAccessor Example.world (fun _ => Example.flat) (C_c :: nil))
           (qc 5 1) true 0%nat (qc 0 1) (qc 0 1) 0 C_c).
  - reflexivity.
  - reflexivity.
  - reflexivity.
  - qc_closed.
  - qc_closed.
Defined.
